(** * Nebula Trips API: a shallow embedding of [src/main.py]

    The development follows the source file top to bottom:
    - Python values ([str] as a list of code points, [bytes] as a list of
      bytes, [dict] as an insertion-ordered association list);
    - the credential hasher [hash_password];
    - the health probe [test_database];
    - the registration handler [register];
    - the deal broadcaster [deals_streamer].

    Handlers run in a small state-and-exception monad over a [World] that
    holds the process-wide database handle, the environment variables, the
    secure random source and a trace of the store operations performed. *)

From Stdlib Require Import ZArith NArith Strings.String Strings.Ascii Strings.Byte
  DecimalString Lia Bool.
From stdpp Require Import base tactics option list numbers gmap.

Set Warnings "-register-all".
Local Open Scope N_scope.

(** ** Python [str]: a sequence of Unicode code points *)

Module PyStr.

Definition t : Type := list N.

(** Decoding of the UTF-8 bytes of a literal of this file into code points;
    only used to write the source's string literals as they are. *)
Fixpoint utf8_decode (bs : list N) : t :=
  match bs with
  | [] => []
  | b0 :: r =>
      if b0 <? 0x80 then b0 :: utf8_decode r
      else if b0 <? 0xE0 then
        match r with
        | b1 :: r' => ((b0 mod 32) * 64 + b1 mod 64) :: utf8_decode r'
        | _ => []
        end
      else if b0 <? 0xF0 then
        match r with
        | b1 :: b2 :: r' =>
            ((b0 mod 16) * 4096 + (b1 mod 64) * 64 + b2 mod 64) :: utf8_decode r'
        | _ => []
        end
      else
        match r with
        | b1 :: b2 :: b3 :: r' =>
            ((b0 mod 8) * 262144 + (b1 mod 64) * 4096 + (b2 mod 64) * 64 + b3 mod 64)
              :: utf8_decode r'
        | _ => []
        end
  end.

Definition lit (s : string) : t :=
  utf8_decode (map N_of_ascii (list_ascii_of_string s)).

Definition eqb (a b : t) : bool := bool_decide (a = b).

(** Truth value of a [str]: the empty string is false. *)
Definition truthy (s : t) : bool :=
  match s with [] => false | _ => true end.

(** [s[:n]] *)
Definition slice_to (n : nat) (s : t) : t := take n s.

(** [s.lower()] on the ASCII range, which is all a hex string uses. *)
Definition lower_char (c : N) : N :=
  if (65 <=? c) && (c <=? 90) then c + 32 else c.
Definition lower (s : t) : t := map lower_char s.

(** A code point that UTF-8 can encode: a Unicode scalar value. *)
Definition scalar (c : N) : bool :=
  (c <? 0x110000) && negb ((0xD800 <=? c) && (c <=? 0xDFFF)).

Definition well_formed (s : t) : bool := forallb scalar s.

End PyStr.

Abbreviation py := PyStr.lit.

(** ** Python [bytes] *)

Module PyBytes.

Definition t : Type := list byte.

Definition byte_of_N (n : N) : byte :=
  match Byte.of_N n with Some b => b | None => x00 end.

(** One lowercase hexadecimal digit, as a code point. *)
Definition hexdigit (n : N) : N :=
  if n <? 10 then 48 + n else 87 + n.

Definition hex_of_byte (b : byte) : PyStr.t :=
  [hexdigit (Byte.to_N b / 16); hexdigit (Byte.to_N b mod 16)].

(** [b.hex()] *)
Definition hex (bs : t) : PyStr.t := flat_map hex_of_byte bs.

(** Value of a hexadecimal digit, either case. *)
Definition digit_value (c : N) : option N :=
  if (48 <=? c) && (c <=? 57) then Some (c - 48)
  else if (97 <=? c) && (c <=? 102) then Some (c - 87)
  else if (65 <=? c) && (c <=? 70) then Some (c - 55)
  else None.

(** ASCII whitespace, skipped by [bytes.fromhex] between bytes. *)
Definition is_space (c : N) : bool :=
  (c =? 32) || ((9 <=? c) && (c <=? 13)).

(** [bytes.fromhex(s)]; [None] stands for [ValueError]. Whitespace is
    skipped before a pair of digits, never inside one. *)
Fixpoint fromhex (s : PyStr.t) : option t :=
  match s with
  | [] => Some []
  | c :: s' =>
      if is_space c then fromhex s'
      else
        match digit_value c, s' with
        | Some top, d :: s'' =>
            match digit_value d with
            | Some bot => cons (byte_of_N (16 * top + bot)) <$> fromhex s''
            | None => None
            end
        | _, _ => None
        end
  end.

(** [s.encode("utf-8")] of one code point; [None] stands for
    [UnicodeEncodeError] (a surrogate has no UTF-8 encoding). *)
Definition utf8_encode_char (c : N) : option t :=
  if c <? 0x80 then Some [byte_of_N c]
  else if c <? 0x800 then
    Some [byte_of_N (0xC0 + c / 64); byte_of_N (0x80 + c mod 64)]
  else if c <? 0x10000 then
    if (0xD800 <=? c) && (c <=? 0xDFFF) then None
    else Some [byte_of_N (0xE0 + c / 4096);
               byte_of_N (0x80 + (c / 64) mod 64);
               byte_of_N (0x80 + c mod 64)]
  else if c <? 0x110000 then
    Some [byte_of_N (0xF0 + c / 262144);
          byte_of_N (0x80 + (c / 4096) mod 64);
          byte_of_N (0x80 + (c / 64) mod 64);
          byte_of_N (0x80 + c mod 64)]
  else None.

Fixpoint utf8_encode (s : PyStr.t) : option t :=
  match s with
  | [] => Some []
  | c :: s' =>
      match utf8_encode_char c, utf8_encode s' with
      | Some b, Some r => Some (b ++ r)
      | _, _ => None
      end
  end.

(** A string made only of lowercase hexadecimal digits. *)
Definition is_lower_hex_char (c : N) : bool :=
  ((48 <=? c) && (c <=? 57)) || ((97 <=? c) && (c <=? 102)).
Definition is_lower_hex (s : PyStr.t) : bool := forallb is_lower_hex_char s.

(** A string made only of hexadecimal digits, an even number of them. *)
Definition is_hex_char (c : N) : bool :=
  match digit_value c with Some _ => true | None => false end.
Definition valid_hex (s : PyStr.t) : bool :=
  forallb is_hex_char s && Nat.even (length s).

End PyBytes.

(** ** Python values, dictionaries and exceptions *)

(** The values the handlers build: strings, integers, lists of strings and
    nested dictionaries. A [dict] keeps its keys in insertion order. *)
Inductive Value :=
  | VStr (s : PyStr.t)
  | VInt (z : Z)
  | VBool (b : bool)
  | VList (l : list PyStr.t)
  | VDict (d : list (PyStr.t * Value)).

Module Dict.

Definition t : Type := list (PyStr.t * Value).

Fixpoint get (k : PyStr.t) (d : t) : option Value :=
  match d with
  | [] => None
  | (k', v) :: d' => if PyStr.eqb k k' then Some v else get k d'
  end.

(** [d[k] = v]: an existing key keeps its position, a new one goes last. *)
Fixpoint set (k : PyStr.t) (v : Value) (d : t) : t :=
  match d with
  | [] => [(k, v)]
  | (k', v') :: d' =>
      if PyStr.eqb k k' then (k, v) :: d' else (k', v') :: set k v d'
  end.


(** Truth value of a [dict]: the empty one is false. *)
Definition truthy (d : t) : bool :=
  match d with [] => false | _ => true end.

End Dict.

(** The exceptions the program raises or meets. [CancelledError] derives from
    [BaseException] only; every other one is an [Exception]. *)
Inductive Exn :=
  | HTTPException (status_code : N) (detail : PyStr.t)
  | ValueError
  | UnicodeEncodeError
  | IndexError
  | TypeError
  | WebSocketDisconnect
  | StoreError (detail : PyStr.t)
  | RuntimeError (detail : PyStr.t)
  | CancelledError.

Definition is_Exception (e : Exn) : bool :=
  match e with CancelledError => false | _ => true end.

Inductive result (A : Type) :=
  | Return (a : A)
  | Raise (e : Exn).
Arguments Return {A} a.
Arguments Raise {A} e.

(** ** State and exceptions

    A computation reads and updates a state and either returns or raises;
    what it did to the state before raising stays done. *)
Definition M (St A : Type) : Type := St -> result A * St.

Definition ret {St A} (a : A) : M St A := fun s => (Return a, s).

Definition raise {St A} (e : Exn) : M St A := fun s => (Raise e, s).

Definition bind {St A B} (m : M St A) (k : A -> M St B) : M St B :=
  fun s =>
    match m s with
    | (Return a, s') => k a s'
    | (Raise e, s') => (Raise e, s')
    end.

Notation "x <-- m ;; k" := (bind m (fun x => k))
  (at level 100, m at next level, right associativity).
Notation "m ;;; k" := (bind m (fun _ => k))
  (at level 100, right associativity).

(** [try: body  except cls as e: handler e], [catches] deciding [cls]. *)
Definition try_except {St A} (body : M St A) (catches : Exn -> bool)
    (handler : Exn -> M St A) : M St A :=
  fun s =>
    match body s with
    | (Return a, s') => (Return a, s')
    | (Raise e, s') => if catches e then handler e s' else (Raise e, s')
    end.

(** ** The document store

    Modelled from the spec: the module [database] ([db], [create_document])
    is not part of the source file. The spec treats it as an opaque document
    store with find, insert and list operations; [db] is [None] when the
    store is not configured. Finding and inserting are taken to succeed on a
    configured store; listing may meet an exception of the driver. *)

Record StoredDoc := { doc_id : PyStr.t; doc_fields : Dict.t }.

Record Store := {
  st_collections : gmap PyStr.t (list StoredDoc);
  (** the exception a listing call meets, when the server is failing *)
  st_fault : option Exn
}.

Inductive StoreOp :=
  | OpFindOne (collection : PyStr.t) (query : Dict.t)
  | OpInsertOne (collection : PyStr.t) (document : Dict.t)
  | OpListCollectionNames.

Definition is_insert (op : StoreOp) : bool :=
  match op with OpInsertOne _ _ => true | _ => false end.

Definition is_find (op : StoreOp) : bool :=
  match op with OpFindOne _ _ => true | _ => false end.

Record World := {
  w_db : option Store;
  w_environ : PyStr.t -> option PyStr.t;
  w_entropy : nat -> byte;
  w_trace : list StoreOp
}.

Definition collection (st : Store) (name : PyStr.t) : list StoredDoc :=
  default [] (st_collections st !! name).

(** The dictionary a query returns for a stored document. *)
Definition as_dict (d : StoredDoc) : Dict.t :=
  (py "_id", VStr (doc_id d)) :: doc_fields d.

(** A query [{k: "s", ...}] selects the documents that hold the string [s]
    under [k], for each of its keys. *)
Definition field_matches (fields : Dict.t) (kv : PyStr.t * Value) : bool :=
  match kv.2, Dict.get kv.1 fields with
  | VStr s, Some (VStr s') => PyStr.eqb s s'
  | _, _ => false
  end.

Definition doc_matches (query : Dict.t) (d : StoredDoc) : bool :=
  forallb (field_matches (as_dict d)) query.

Definition log (op : StoreOp) (w : World) : World :=
  {| w_db := w_db w; w_environ := w_environ w; w_entropy := w_entropy w;
     w_trace := w_trace w ++ [op] |}.

Definition with_db (st : Store) (w : World) : World :=
  {| w_db := Some st; w_environ := w_environ w; w_entropy := w_entropy w;
     w_trace := w_trace w |}.

Definition with_entropy (e : nat -> byte) (w : World) : World :=
  {| w_db := w_db w; w_environ := w_environ w; w_entropy := e;
     w_trace := w_trace w |}.

(** [db] *)
Definition get_db : M World (option Store) := fun w => (Return (w_db w), w).

(** [db[name].find_one(query)]; subscripting [None] is a [TypeError]. *)
Definition find_one (name : PyStr.t) (query : Dict.t) : M World (option Dict.t) :=
  fun w =>
    match w_db w with
    | None => (Raise TypeError, w)
    | Some st =>
        (Return (as_dict <$> List.find (doc_matches query) (collection st name)),
         log (OpFindOne name query) w)
    end.

(** [db.list_collection_names()] *)
Definition list_collection_names : M World (list PyStr.t) :=
  fun w =>
    match w_db w with
    | None => (Raise TypeError, w)
    | Some st =>
        match st_fault st with
        | Some e => (Raise e, log OpListCollectionNames w)
        | None =>
            (Return (map fst (map_to_list (st_collections st))),
             log OpListCollectionNames w)
        end
    end.

Definition insert_one (st : Store) (name id : PyStr.t) (data : Dict.t) : Store :=
  {| st_collections :=
       <[name := collection st name ++ [{| doc_id := id; doc_fields := data |}]]>
         (st_collections st);
     st_fault := st_fault st |}.

(** [os.getenv(name)] *)
Definition getenv (name : PyStr.t) : M World (option PyStr.t) :=
  fun w => (Return (w_environ w name), w).

(** [secrets.token_bytes(n)]: the next [n] bytes of the random source. *)
Definition token_bytes (n : nat) : M World PyBytes.t :=
  fun w =>
    (Return (map (w_entropy w) (seq 0 n)),
     with_entropy (fun i => w_entropy w (n + i)%nat) w).

(** Truth value of what [find_one] returns: [None] and [{}] are false. *)
Definition truthy_found (r : option Dict.t) : bool :=
  match r with None => false | Some d => Dict.truthy d end.

Definition truthy_env (r : option PyStr.t) : bool :=
  match r with None => false | Some s => PyStr.truthy s end.

Definition lift_option {St A} (e : Exn) (o : option A) : M St A :=
  match o with Some a => ret a | None => raise e end.

(** ** [json.dumps] with its defaults

    Non-ASCII characters are escaped ([ensure_ascii]), items are separated by
    a comma and a space, keys from values by a colon and a space. *)

Module Json.

Definition hex4 (n : N) : PyStr.t :=
  [PyBytes.hexdigit (n / 4096 mod 16); PyBytes.hexdigit (n / 256 mod 16);
   PyBytes.hexdigit (n / 16 mod 16); PyBytes.hexdigit (n mod 16)].

(** Backslash is 92, the double quote 34, [u] is 117. *)
Definition escape_u (n : N) : PyStr.t := [92; 117] ++ hex4 n.

Definition escape_char (c : N) : PyStr.t :=
  if c =? 34 then [92; 34]
  else if c =? 92 then [92; 92]
  else if c =? 10 then [92; 110]
  else if c =? 13 then [92; 114]
  else if c =? 9 then [92; 116]
  else if c =? 8 then [92; 98]
  else if c =? 12 then [92; 102]
  else if (32 <=? c) && (c <=? 126) then [c]
  else if c <? 0x10000 then escape_u c
  else
    let v := c - 0x10000 in
    escape_u (0xD800 + (v / 1024) mod 1024) ++ escape_u (0xDC00 + v mod 1024).

Definition dumps_str (s : PyStr.t) : PyStr.t :=
  [34] ++ flat_map escape_char s ++ [34].

Fixpoint join (sep : PyStr.t) (parts : list PyStr.t) : PyStr.t :=
  match parts with
  | [] => []
  | [p] => p
  | p :: rest => p ++ sep ++ join sep rest
  end.

Definition dumps_int (z : Z) : PyStr.t :=
  py (DecimalString.NilZero.string_of_int (Z.to_int z)).

Fixpoint dumps (v : Value) : PyStr.t :=
  match v with
  | VStr s => dumps_str s
  | VInt z => dumps_int z
  | VBool b => if b then py "true" else py "false"
  | VList l => py "[" ++ join (py ", ") (map dumps_str l) ++ py "]"
  | VDict d =>
      py "{" ++
      (fix items (d : list (PyStr.t * Value)) : PyStr.t :=
         match d with
         | [] => []
         | [(k, x)] => dumps_str k ++ py ": " ++ dumps x
         | (k, x) :: d' => dumps_str k ++ py ": " ++ dumps x ++ py ", " ++ items d'
         end) d
      ++ py "}"
  end.

End Json.

(** ** Realtime deals: [deals_streamer] *)

Local Open Scope Z_scope.

Definition cities : list (PyStr.t * PyStr.t) :=
  [(py "NYC", py "Paris"); (py "Tokyo", py "Seoul"); (py "Berlin", py "Rome");
   (py "SF", py "Honolulu"); (py "Dubai", py "Sydney"); (py "LA", py "Mexico City")].

(** [l[i]]: a negative index counts from the end, an index out of range is an
    [IndexError] ([None]). *)
Definition list_index {A} (l : list A) (i : Z) : option A :=
  let n := Z.of_nat (length l) in
  if i <? 0 then (if 0 <=? n + i then l !! Z.to_nat (n + i) else None)
  else l !! Z.to_nat i.

(** The body of the loop up to the frame it sends. The clock is read twice,
    [now_route] for the index and [now_price] for the price; both readings are
    [int(datetime.utcnow().timestamp())]. *)
Definition deal_message (now_route now_price : Z) : result PyStr.t :=
  match list_index cities (now_route mod Z.of_nat (length cities)) with
  | None => Raise IndexError
  | Some (dep, arr) =>
      let price := 199 + now_price mod 500 in
      let payload :=
        [(py "route", VStr (dep ++ py " → " ++ arr));
         (py "destination", VStr arr);
         (py "price", VInt price)] in
      Return (Json.dumps (VDict [(py "type", VStr (py "deal"));
                                 (py "payload", VDict payload)]))
  end.

(** What the surroundings do during one turn of the loop: the two clock
    readings, and whether [send_text] and [asyncio.sleep] return or raise. *)
Record Tick := {
  now_route : Z;
  now_price : Z;
  send_raises : option Exn;
  sleep_raises : option Exn
}.

Inductive Status :=
  | Streaming
  | Closed
  | Failed (e : Exn).

(** The state of a connection is the list of text frames sent so far. *)
Definition send_text (raises : option Exn) (msg : PyStr.t) : M (list PyStr.t) unit :=
  fun sent =>
    match raises with
    | Some e => (Raise e, sent)
    | None => (Return tt, sent ++ [msg])
    end.

Definition sleep (raises : option Exn) : M (list PyStr.t) unit :=
  fun sent =>
    match raises with
    | Some e => (Raise e, sent)
    | None => (Return tt, sent)
    end.

Definition iteration (tk : Tick) : M (list PyStr.t) unit :=
  msg <-- (fun sent => (deal_message (now_route tk) (now_price tk), sent)) ;;
  send_text (send_raises tk) msg ;;;
  sleep (sleep_raises tk).

(** [while True: ...] run against the turns [env] describes; when they are
    used up the loop is still going ([Streaming]). *)
Fixpoint while_true (env : list Tick) : M (list PyStr.t) Status :=
  match env with
  | [] => ret Streaming
  | tk :: env' => iteration tk ;;; while_true env'
  end.

Definition is_disconnect (e : Exn) : bool :=
  match e with WebSocketDisconnect => true | _ => false end.

(** [accept_raises] is what [websocket.accept()] does, outside the [try]. *)
Definition deals_streamer (accept_raises : option Exn) (env : list Tick)
    : Status * list PyStr.t :=
  match accept_raises with
  | Some e => (Failed e, [])
  | None =>
      match try_except (while_true env) is_disconnect (fun _ => ret Closed) [] with
      | (Return st, sent) => (st, sent)
      | (Raise e, sent) => (Failed e, sent)
      end
  end.

(** A turn in which nothing raises. *)
Definition quiet (tk : Tick) : bool :=
  match send_raises tk, sleep_raises tk with
  | None, None => true
  | _, _ => false
  end.

(** The first exception a turn raises inside the [try], if any. *)
Definition tick_raises (tk : Tick) : option Exn :=
  match send_raises tk with
  | Some e => Some e
  | None => sleep_raises tk
  end.

Local Close Scope Z_scope.

(** ** The handlers

    Three things come from outside the repository and are left open:
    [hashlib.scrypt], the identifier the store gives a new document, and the
    text [str(e)] of an exception. *)

Section Handlers.

Variable scrypt : PyBytes.t -> PyBytes.t -> N -> N -> N -> nat -> PyBytes.t.
Variable object_id : Store -> PyStr.t.
Variable str_exn : Exn -> PyStr.t.

(** [hash_password(password, salt_hex=None)]: returns [(salt_hex, hash_hex)]. *)
Definition hash_password (password : PyStr.t) (salt_hex : option PyStr.t)
    : M World (PyStr.t * PyStr.t) :=
  salt <-- match salt_hex with
           | None => token_bytes 16
           | Some h => lift_option ValueError (PyBytes.fromhex h)
           end ;;
  pw <-- lift_option UnicodeEncodeError (PyBytes.utf8_encode password) ;;
  let key := scrypt pw salt (2 ^ 14) 8 1 32 in
  ret (PyBytes.hex salt, PyBytes.hex key).

Record RegisterRequest := { email : PyStr.t; password : PyStr.t }.

(** Modelled from the spec: [create_document] of the missing module
    [database] inserts the document into the named collection and returns
    the identifier the store assigned. The spec is silent on what it does
    without a store; [register] never calls it then. *)
Definition create_document (name : PyStr.t) (data : Dict.t) : M World PyStr.t :=
  fun w =>
    match w_db w with
    | None => (Raise (StoreError (py "Database not available")), w)
    | Some st =>
        let id := object_id st in
        (Return id, log (OpInsertOne name data) (with_db (insert_one st name id data) w))
    end.

(** The document [register] builds for a request. *)
Definition credential_doc (req : RegisterRequest) (salt_hex hash_hex : PyStr.t)
    : Dict.t :=
  [(py "email", VStr (email req));
   (py "password_salt", VStr salt_hex);
   (py "password_hash", VStr hash_hex);
   (py "provider", VStr (py "email"))].

(** [POST /auth/register] *)
Definition register (req : RegisterRequest) : M World Dict.t :=
  db <-- get_db ;;
  match db with
  | None => raise (HTTPException 500 (py "Database not configured"))
  | Some _ =>
      existing <-- find_one (py "authuser") [(py "email", VStr (email req))] ;;
      if truthy_found existing
      then raise (HTTPException 400 (py "Email already registered"))
      else
        sh <-- hash_password (password req) None ;;
        let doc := credential_doc req sh.1 sh.2 in
        _id <-- create_document (py "authuser") doc ;;
        ret [(py "id", VStr _id); (py "email", VStr (email req))]
  end.

(** [GET /test]. The handler updates one dictionary in place, so what it wrote
    before an exception is still there in the handler of that exception. *)
Record Frame := { fr_world : World; fr_response : Dict.t }.

Definition in_world {A} (m : M World A) : M Frame A :=
  fun f =>
    match m (fr_world f) with
    | (r, w') => (r, {| fr_world := w'; fr_response := fr_response f |})
    end.

(** [response[k] = v] *)
Definition set_item (k : PyStr.t) (v : Value) : M Frame unit :=
  fun f =>
    (Return tt, {| fr_world := fr_world f; fr_response := Dict.set k v (fr_response f) |}).

Definition initial_response : Dict.t :=
  [(py "backend", VStr (py "✅ Running"));
   (py "database", VStr (py "❌ Not Available"));
   (py "database_url", VStr (py "❌ Not Set"));
   (py "database_name", VStr (py "❌ Not Set"));
   (py "connection_status", VStr (py "Not Connected"));
   (py "collections", VList [])].

Definition set_or_not (v : option PyStr.t) : Value :=
  VStr (if truthy_env v then py "✅ Set" else py "❌ Not Set").

Definition test_database_body : M Frame unit :=
  try_except
    (db <-- in_world get_db ;;
     match db with
     | Some _ =>
         set_item (py "database") (VStr (py "✅ Available")) ;;;
         url <-- in_world (getenv (py "DATABASE_URL")) ;;
         set_item (py "database_url") (set_or_not url) ;;;
         name <-- in_world (getenv (py "DATABASE_NAME")) ;;
         set_item (py "database_name") (set_or_not name) ;;;
         try_except
           (collections <-- in_world list_collection_names ;;
            set_item (py "collections") (VList (take 10 collections)) ;;;
            set_item (py "database") (VStr (py "✅ Connected & Working")) ;;;
            set_item (py "connection_status") (VStr (py "Connected")))
           is_Exception
           (fun e =>
              set_item (py "database")
                (VStr (py "⚠️ Connected but Error: " ++ PyStr.slice_to 80 (str_exn e))))
     | None =>
         set_item (py "database") (VStr (py "⚠️ Available but not initialized"))
     end)
    is_Exception
    (fun e =>
       set_item (py "database")
         (VStr (py "❌ Error: " ++ PyStr.slice_to 80 (str_exn e)))).

Definition test_database : M World Dict.t :=
  fun w =>
    match test_database_body {| fr_world := w; fr_response := initial_response |} with
    | (Return _, f) => (Return (fr_response f), fr_world f)
    | (Raise e, f) => (Raise e, fr_world f)
    end.

End Handlers.

(** A stand-in for [scrypt] with the right output length, and one for the
    store's identifiers, to run the handlers on examples. *)
Definition toy_scrypt (pw salt : PyBytes.t) (n r p : N) (dklen : nat) : PyBytes.t :=
  take dklen (pw ++ salt ++ repeat x00 dklen).

Definition toy_object_id (st : Store) : PyStr.t :=
  Json.dumps_int (Z.of_nat (length (collection st (py "authuser")))).

Definition toy_str (e : Exn) : PyStr.t :=
  match e with
  | HTTPException _ d | StoreError d | RuntimeError d => d
  | _ => []
  end.

Definition no_environ : PyStr.t -> option PyStr.t := fun _ => None.

Definition zero_entropy : nat -> byte := fun _ => x00.

Definition empty_store : Store := {| st_collections := ∅; st_fault := None |}.

Definition world_of (db : option Store) : World :=
  {| w_db := db; w_environ := no_environ; w_entropy := zero_entropy; w_trace := [] |}.

(** ** Auxiliary definitions for the proofs *)

(** The hexadecimal digits, both cases. *)
Definition hex_chars : list N :=
  [48; 49; 50; 51; 52; 53; 54; 55; 56; 57; 65; 66; 67; 68; 69; 70;
   97; 98; 99; 100; 101; 102].

(** One pair of digits: not skipped, decoded to the byte whose [hex] is the
    pair in lowercase. *)
Definition pair_ok (c d : N) : bool :=
  negb (PyBytes.is_space c) &&
  match PyBytes.digit_value c, PyBytes.digit_value d with
  | Some top, Some bot =>
      bool_decide (PyBytes.hex_of_byte (PyBytes.byte_of_N (16 * top + bot))
                   = [PyStr.lower_char c; PyStr.lower_char d])
  | _, _ => false
  end.

(** The envelope as the spec describes it:
    [{type: "deal", payload: {route, destination, price}}]. *)
Definition deal_envelope (origin destination : PyStr.t) (price : Z) : Value :=
  VDict [(py "type", VStr (py "deal"));
         (py "payload",
          VDict [(py "route", VStr (origin ++ py " → " ++ destination));
                 (py "destination", VStr destination);
                 (py "price", VInt price)])].

(** The first exception raised inside the [try] over the turns of [env]. *)
Fixpoint first_raise (env : list Tick) : option Exn :=
  match env with
  | [] => None
  | tk :: env' =>
      match tick_raises tk with
      | Some e => Some e
      | None => first_raise env'
      end
  end.

(** The frames a run has sent when it meets its first exception, or the end
    of [env]: one a turn, the last turn included unless its send raised. *)
Fixpoint frames_sent (env : list Tick) : nat :=
  match env with
  | [] => 0
  | tk :: env' =>
      match send_raises tk, sleep_raises tk with
      | Some _, _ => 0
      | None, Some _ => 1
      | None, None => S (frames_sent env')
      end
  end.

Definition quiet_tick (t : Z) : Tick :=
  {| now_route := t; now_price := t; send_raises := None; sleep_raises := None |}.

(** One turn, then the task is cancelled while it sleeps. *)
Definition cancelled_env : list Tick :=
  [{| now_route := 5; now_price := 6; send_raises := None;
      sleep_raises := Some CancelledError |}].

(** The store holds a credential record for this email. *)
Definition has_credential (st : Store) (e : PyStr.t) : Prop :=
  exists d, In d (collection st (py "authuser"))
            /\ Dict.get (py "email") (doc_fields d) = Some (VStr e).

Definition email_query (e : PyStr.t) : Dict.t := [(py "email", VStr e)].



(** A store whose listing fails, with a message longer than 80 characters. *)
Definition failing_store : Store :=
  {| st_collections := ∅;
     st_fault := Some (StoreError (py "connection refused: " ++ repeat 120 100)) |}.

Definition alice : PyStr.t := py "a@b.com".

(** ** The clock of the broadcaster *)




(** ** Auxiliary definitions for the further properties *)

Definition all_space (s : PyStr.t) : bool := forallb PyBytes.is_space s.

(** The email a stored record carries, and the emails of the user
    collection in the order of insertion. *)
Definition record_email (d : StoredDoc) : option PyStr.t :=
  match Dict.get (py "email") (doc_fields d) with
  | Some (VStr s) => Some s
  | _ => None
  end.

Definition emails (st : Store) : list PyStr.t :=
  omap record_email (collection st (py "authuser")).

(** The frame of a turn. *)
Definition tick_message (tk : Tick) : PyStr.t :=
  match deal_message (now_route tk) (now_price tk) with
  | Return m => m
  | Raise _ => []
  end.

(** Reading a frame back: the pair from the first letter of the origin (at
    offset 39 of the text), the price from the three digits before the two
    closing braces. *)
Definition frame_route (msg : PyStr.t) : option Z :=
  match msg !! 39%nat with
  | Some 78 => Some 0%Z
  | Some 84 => Some 1%Z
  | Some 66 => Some 2%Z
  | Some 83 => Some 3%Z
  | Some 68 => Some 4%Z
  | Some 76 => Some 5%Z
  | _ => None
  end.

Definition frame_price (msg : PyStr.t) : option Z :=
  match drop (length msg - 5) msg with
  | [a; b; c; 125; 125] =>
      Some (Z.of_N (100 * (a - 48) + 10 * (b - 48) + (c - 48)))
  | _ => None
  end.

Definition printable (c : N) : bool := (32 <=? c) && (c <=? 126).

(** A frame for entry [r] and price offset [p] is printable ASCII and reads
    back as [r] and [199 + p]. *)
Definition frame_ok (r p : nat) : bool :=
  match deal_message (Z.of_nat r) (Z.of_nat p) with
  | Return m =>
      forallb printable m
      && bool_decide (frame_route m = Some (Z.of_nat r))
      && bool_decide (frame_price m = Some (199 + Z.of_nat p)%Z)
  | Raise _ => false
  end.

Definition set_environ (name value : PyStr.t) : PyStr.t -> option PyStr.t :=
  fun k => if PyStr.eqb k name then Some value else None.

Definition bob : PyStr.t := py "bob@example.org".

(** * Properties *)

(** ** Model checks on concrete values *)

Example lit_arrow : py " → " = [32; 0x2192; 32].
Proof. reflexivity. Qed.

Example hex_example : PyBytes.hex [x00; xff; x1a] = py "00ff1a".
Proof. reflexivity. Qed.

Example fromhex_example :
  PyBytes.fromhex (py " 00 FF1a ") = Some [x00; xff; x1a].
Proof. reflexivity. Qed.

Example fromhex_odd : PyBytes.fromhex (py "abc") = None.
Proof. reflexivity. Qed.

Example fromhex_split_pair : PyBytes.fromhex (py "a b") = None.
Proof. reflexivity. Qed.

Example encode_example :
  PyBytes.utf8_encode (py "é→") = Some [xc3; xa9; xe2; x86; x92].
Proof. reflexivity. Qed.

Example encode_surrogate : PyBytes.utf8_encode [0xD800] = None.
Proof. reflexivity. Qed.

Example dumps_escapes :
  Json.dumps (VStr [34; 0x2192; 0x1F600; 10]) =
  [34; 92; 34] ++ py "\u2192\ud83d\ude00\n" ++ [34].
Proof. reflexivity. Qed.

(** ** Hexadecimal encoding *)

Lemma hex_of_byte_lower (b : byte) :
  PyBytes.is_lower_hex (PyBytes.hex_of_byte b) = true.
Proof. destruct b; reflexivity. Qed.

Lemma hex_length (bs : PyBytes.t) :
  length (PyBytes.hex bs) = (2 * length bs)%nat.
Proof.
  induction bs as [|b bs IH]; [reflexivity|].
  cbn [PyBytes.hex flat_map]. fold (PyBytes.hex bs).
  rewrite length_app, IH. cbn [PyBytes.hex_of_byte length]. lia.
Qed.

Lemma hex_lower (bs : PyBytes.t) :
  PyBytes.is_lower_hex (PyBytes.hex bs) = true.
Proof.
  induction bs as [|b bs IH]; [reflexivity|].
  cbn [PyBytes.hex flat_map]. fold (PyBytes.hex bs).
  pose proof (hex_of_byte_lower b) as Hb.
  unfold PyBytes.is_lower_hex in *. rewrite forallb_app, IH, Hb. reflexivity.
Qed.

Lemma fromhex_hex_of_byte (b : byte) (r : PyStr.t) :
  PyBytes.fromhex (PyBytes.hex_of_byte b ++ r) = cons b <$> PyBytes.fromhex r.
Proof. destruct b; reflexivity. Qed.

(** Decoding what [hex] wrote gives the bytes back. *)
Lemma fromhex_hex (bs : PyBytes.t) :
  PyBytes.fromhex (PyBytes.hex bs) = Some bs.
Proof.
  induction bs as [|b bs IH]; [reflexivity|].
  cbn [PyBytes.hex flat_map]. fold (PyBytes.hex bs).
  rewrite fromhex_hex_of_byte, IH. reflexivity.
Qed.

Lemma is_hex_char_enum (c : N) :
  PyBytes.is_hex_char c = true -> In c hex_chars.
Proof.
  unfold PyBytes.is_hex_char, PyBytes.digit_value, hex_chars.
  destruct (48 <=? c) eqn:H1, (c <=? 57) eqn:H2, (97 <=? c) eqn:H3,
    (c <=? 102) eqn:H4, (65 <=? c) eqn:H5, (c <=? 70) eqn:H6;
    cbn [andb]; intros H; try discriminate H;
    repeat match goal with
      | H : (_ <=? _) = true |- _ => apply N.leb_le in H
      | H : (_ <=? _) = false |- _ => apply N.leb_gt in H
      end;
    cbn [In]; lia.
Qed.

Lemma pair_ok_all :
  forallb (fun c => forallb (pair_ok c) hex_chars) hex_chars = true.
Proof. vm_compute. reflexivity. Qed.

Lemma pair_ok_hex (c d : N) :
  PyBytes.is_hex_char c = true -> PyBytes.is_hex_char d = true ->
  pair_ok c d = true.
Proof.
  intros Hc%is_hex_char_enum Hd%is_hex_char_enum.
  pose proof pair_ok_all as H.
  rewrite forallb_forall in H. specialize (H c Hc).
  rewrite forallb_forall in H. exact (H d Hd).
Qed.

Lemma fromhex_pair (c d : N) (s : PyStr.t) :
  pair_ok c d = true ->
  exists b, PyBytes.fromhex (c :: d :: s) = cons b <$> PyBytes.fromhex s
            /\ PyBytes.hex_of_byte b = [PyStr.lower_char c; PyStr.lower_char d].
Proof.
  unfold pair_ok. intros H.
  apply andb_true_iff in H as [Hs H].
  apply negb_true_iff in Hs.
  cbn [PyBytes.fromhex]. rewrite Hs.
  destruct (PyBytes.digit_value c) as [top|]; [|discriminate].
  destruct (PyBytes.digit_value d) as [bot|]; [|discriminate].
  apply bool_decide_eq_true in H.
  eexists. split; [reflexivity | exact H].
Qed.

Lemma pair_induction {A} (P : list A -> Prop) :
  P [] -> (forall a, P [a]) -> (forall a b l, P l -> P (a :: b :: l)) ->
  forall l, P l.
Proof.
  intros H0 H1 H2.
  assert (forall l, P l /\ forall a, P (a :: l)) as H.
  { induction l as [|x l [IH1 IH2]]; split; auto. }
  intros l. apply H.
Qed.

(** On a string of hexadecimal digits, an even number of them, decoding
    succeeds and encoding again gives the string in lowercase. *)
Lemma hex_fromhex_lower (s : PyStr.t) :
  PyBytes.valid_hex s = true ->
  exists bs, PyBytes.fromhex s = Some bs /\ PyBytes.hex bs = PyStr.lower s
             /\ length s = (2 * length bs)%nat.
Proof.
  unfold PyBytes.valid_hex.
  induction s as [| a | a b l IH] using pair_induction; intros H.
  - exists []. repeat split.
  - apply andb_true_iff in H as [_ H]. discriminate H.
  - apply andb_true_iff in H as [H Hev].
    cbn [forallb] in H.
    apply andb_true_iff in H as [Ha H]. apply andb_true_iff in H as [Hb Hl].
    destruct IH as (bs & Hbs & Hhex & Hlen).
    { rewrite Hl. exact Hev. }
    destruct (fromhex_pair a b l (pair_ok_hex a b Ha Hb)) as (x & Hx & Hxh).
    exists (x :: bs). rewrite Hx, Hbs. repeat split.
    + cbn [PyBytes.hex flat_map]. fold (PyBytes.hex bs).
      rewrite Hhex, Hxh. reflexivity.
    + cbn [length]. lia.
Qed.

(** ** UTF-8 encoding *)

Lemma utf8_encode_char_scalar (c : N) :
  PyStr.scalar c = true -> is_Some (PyBytes.utf8_encode_char c).
Proof.
  unfold PyStr.scalar, PyBytes.utf8_encode_char. intros H.
  apply andb_true_iff in H as [H1 H2]. apply negb_true_iff in H2.
  rewrite H2, H1.
  destruct (c <? 128), (c <? 2048), (c <? 65536); eauto.
Qed.

Lemma utf8_encode_well_formed (s : PyStr.t) :
  PyStr.well_formed s = true -> is_Some (PyBytes.utf8_encode s).
Proof.
  unfold PyStr.well_formed.
  induction s as [|c s IH]; cbn [forallb PyBytes.utf8_encode]; intros H.
  - eauto.
  - apply andb_true_iff in H as [Hc Hs].
    destruct (utf8_encode_char_scalar c Hc) as [b ->].
    destruct (IH Hs) as [r ->]. eauto.
Qed.

(** ** The credential hasher *)

Lemma toy_scrypt_length pw salt n r p dklen :
  length (toy_scrypt pw salt n r p dklen) = dklen.
Proof.
  unfold toy_scrypt. rewrite length_take, !length_app, repeat_length. lia.
Qed.

Section HasherProperties.

Variable scrypt : PyBytes.t -> PyBytes.t -> N -> N -> N -> nat -> PyBytes.t.

(** [hashlib.scrypt] returns [dklen] bytes. *)
Hypothesis scrypt_length :
  forall pw salt n r p dklen, length (scrypt pw salt n r p dklen) = dklen.

Lemma hash_password_supplied (p h : PyStr.t) (w : World) :
  hash_password scrypt p (Some h) w =
  match PyBytes.fromhex h with
  | None => (Raise ValueError, w)
  | Some salt =>
      match PyBytes.utf8_encode p with
      | None => (Raise UnicodeEncodeError, w)
      | Some pw =>
          (Return (PyBytes.hex salt, PyBytes.hex (scrypt pw salt (2 ^ 14) 8 1 32)), w)
      end
  end.
Proof.
  unfold hash_password, bind, lift_option, ret, raise.
  destruct (PyBytes.fromhex h); [|reflexivity].
  destruct (PyBytes.utf8_encode p); reflexivity.
Qed.

Lemma hash_password_fresh (p : PyStr.t) (w : World) :
  hash_password scrypt p None w =
  let salt := map (w_entropy w) (seq 0 16) in
  let w' := with_entropy (fun i => w_entropy w (16 + i)%nat) w in
  match PyBytes.utf8_encode p with
  | None => (Raise UnicodeEncodeError, w')
  | Some pw =>
      (Return (PyBytes.hex salt, PyBytes.hex (scrypt pw salt (2 ^ 14) 8 1 32)), w')
  end.
Proof.
  unfold hash_password, bind, lift_option, ret, raise, token_bytes.
  destruct (PyBytes.utf8_encode p); reflexivity.
Qed.

(** C3, as the code has it: for a password that UTF-8 can encode, the derived
    key is always 64 lowercase hexadecimal characters for 32 bytes, and the
    salt comes back as lowercase hexadecimal, two characters a byte: 32
    characters for 16 bytes when it is freshly generated, and whatever length
    the supplied salt decodes to otherwise. *)
Theorem hash_password_output_shape (p : PyStr.t) (salt_hex : option PyStr.t)
    (w : World) :
  PyStr.well_formed p = true ->
  (forall h, salt_hex = Some h -> is_Some (PyBytes.fromhex h)) ->
  exists salt key : PyBytes.t,
    (hash_password scrypt p salt_hex w).1 = Return (PyBytes.hex salt, PyBytes.hex key)
    /\ length key = 32%nat
    /\ length (PyBytes.hex key) = 64%nat
    /\ PyBytes.is_lower_hex (PyBytes.hex key) = true
    /\ PyBytes.is_lower_hex (PyBytes.hex salt) = true
    /\ length (PyBytes.hex salt) = (2 * length salt)%nat
    /\ (salt_hex = None -> length salt = 16%nat /\ length (PyBytes.hex salt) = 32%nat)
    /\ (forall h, salt_hex = Some h -> PyBytes.fromhex h = Some salt).
Proof.
  intros Hp Hh.
  destruct (utf8_encode_well_formed p Hp) as [pw Hpw].
  destruct salt_hex as [h|].
  - destruct (Hh h eq_refl) as [salt Hsalt].
    exists salt, (scrypt pw salt (2 ^ 14) 8 1 32).
    rewrite hash_password_supplied, Hsalt, Hpw.
    rewrite !hex_length, !hex_lower, scrypt_length.
    repeat split; try reflexivity; try discriminate.
    intros h' [= <-]. exact Hsalt.
  - exists (map (w_entropy w) (seq 0 16)),
      (scrypt pw (map (w_entropy w) (seq 0 16)) (2 ^ 14) 8 1 32).
    rewrite hash_password_fresh. cbv zeta. rewrite Hpw.
    rewrite !hex_length, !hex_lower, scrypt_length.
    rewrite length_map, length_seq.
    repeat split; try reflexivity; discriminate.
Qed.

(** C4: with a supplied salt the result is a function of the password and
    the salt alone; the world it runs in (random source, store, environment)
    has no part in it and is left as it was. *)
Theorem hash_password_deterministic (p s : PyStr.t) (w1 w2 : World) :
  (hash_password scrypt p (Some s) w1).1 = (hash_password scrypt p (Some s) w2).1
  /\ (hash_password scrypt p (Some s) w1).2 = w1.
Proof.
  rewrite !hash_password_supplied.
  destruct (PyBytes.fromhex s); [|split; reflexivity].
  destruct (PyBytes.utf8_encode p); split; reflexivity.
Qed.

(** What a call returned as salt is accepted as a supplied salt and decodes
    to the bytes it stood for. *)
Lemma returned_salt_decodes (p : PyStr.t) (sh : option PyStr.t) (w : World)
    (salt key : PyStr.t) :
  (hash_password scrypt p sh w).1 = Return (salt, key) ->
  exists sb pw, PyBytes.fromhex salt = Some sb /\ PyBytes.utf8_encode p = Some pw
    /\ salt = PyBytes.hex sb /\ key = PyBytes.hex (scrypt pw sb (2 ^ 14) 8 1 32).
Proof.
  destruct sh as [h|].
  - rewrite hash_password_supplied.
    destruct (PyBytes.fromhex h) as [sb|]; [|discriminate].
    destruct (PyBytes.utf8_encode p) as [pw|]; [|discriminate].
    cbn [fst]. intros [= <- <-]. exists sb, pw. rewrite fromhex_hex. auto.
  - rewrite hash_password_fresh. cbv zeta.
    destruct (PyBytes.utf8_encode p) as [pw|]; [|discriminate].
    cbn [fst]. intros H.
    assert (salt = PyBytes.hex (map (w_entropy w) (seq 0 16))) as -> by congruence.
    exists (map (w_entropy w) (seq 0 16)), pw.
    rewrite fromhex_hex. repeat split; congruence.
Qed.

(** C9: for a supplied salt made of an even number of hexadecimal digits the
    salt returned is that string in lowercase, and it is returned whenever the
    password can be encoded; feeding the salt a call returned into another
    call with the same password gives the same salt, and the same key. *)
Theorem hash_password_salt_roundtrip (p s : PyStr.t) (w : World) :
  PyBytes.valid_hex s = true ->
  (forall salt key,
      (hash_password scrypt p (Some s) w).1 = Return (salt, key) ->
      salt = PyStr.lower s)
  /\ (PyStr.well_formed p = true ->
      exists key, (hash_password scrypt p (Some s) w).1 = Return (PyStr.lower s, key))
  /\ (forall sh w0 salt key,
      (hash_password scrypt p sh w0).1 = Return (salt, key) ->
      forall w', (hash_password scrypt p (Some salt) w').1 = Return (salt, key)).
Proof.
  intros Hs.
  destruct (hex_fromhex_lower s Hs) as (bs & Hbs & Hhex & _).
  split; [|split].
  - intros salt key. rewrite hash_password_supplied, Hbs.
    destruct (PyBytes.utf8_encode p); [|discriminate].
    intros [= <- _]. exact Hhex.
  - intros Hp. destruct (utf8_encode_well_formed p Hp) as [pw Hpw].
    rewrite hash_password_supplied, Hbs, Hpw, Hhex. eauto.
  - intros sh w0 salt key H w'.
    destruct (returned_salt_decodes p sh w0 salt key H) as (sb & pw & H1 & H2 & H3 & H4).
    rewrite hash_password_supplied, H1, H2, H3, H4. reflexivity.
Qed.

End HasherProperties.

Example hash_password_bad_salt :
  (hash_password toy_scrypt (py "hunter2") (Some (py "xyz")) (world_of None)).1
  = Raise ValueError.
Proof. reflexivity. Qed.

Example hash_password_surrogate :
  (hash_password toy_scrypt [0xD800] None (world_of None)).1
  = Raise UnicodeEncodeError.
Proof. reflexivity. Qed.

(** C3 as it is written fails on a supplied salt: one byte of salt comes back
    as two characters, not 32. *)
Lemma hash_password_short_salt :
  exists key,
    (hash_password toy_scrypt (py "hunter2") (Some (py "ab")) (world_of None)).1
      = Return (py "ab", key)
    /\ length (py "ab") = 2%nat /\ length (py "ab") <> 32%nat.
Proof. eexists. split; [vm_compute; reflexivity | split; [reflexivity | discriminate]]. Qed.

Lemma hash_password_output_shape_witness :
  exists salt key : PyBytes.t,
    (hash_password toy_scrypt (py "hunter2") None (world_of None)).1
      = Return (PyBytes.hex salt, PyBytes.hex key)
    /\ length key = 32%nat
    /\ length (PyBytes.hex key) = 64%nat
    /\ PyBytes.is_lower_hex (PyBytes.hex key) = true
    /\ PyBytes.is_lower_hex (PyBytes.hex salt) = true
    /\ length (PyBytes.hex salt) = (2 * length salt)%nat
    /\ (@None PyStr.t = None -> length salt = 16%nat /\ length (PyBytes.hex salt) = 32%nat)
    /\ (forall h, None = Some h -> PyBytes.fromhex h = Some salt).
Proof.
  apply (hash_password_output_shape toy_scrypt toy_scrypt_length
           (py "hunter2") None (world_of None)).
  - reflexivity.
  - intros h H. discriminate H.
Defined.

Lemma hash_password_salt_roundtrip_witness :
  PyBytes.valid_hex (py "00FFab12") = true
  /\ exists key,
      (hash_password toy_scrypt (py "hunter2") (Some (py "00FFab12")) (world_of None)).1
        = Return (py "00ffab12", key).
Proof.
  split; [reflexivity|].
  destruct (hash_password_salt_roundtrip toy_scrypt (py "hunter2") (py "00FFab12")
              (world_of None) eq_refl) as (_ & H & _).
  exact (H eq_refl).
Defined.

(** ** The deal broadcaster *)

Local Open Scope Z_scope.

Example deal_at_0 :
  deal_message 0 0 =
  Return (([123; 34] ++ py "type" ++ [34] ++ py ": " ++ [34] ++ py "deal" ++ [34]
          ++ py ", " ++ [34] ++ py "payload" ++ [34] ++ py ": {" ++ [34]
          ++ py "route" ++ [34] ++ py ": " ++ [34] ++ py "NYC \u2192 Paris" ++ [34]
          ++ py ", " ++ [34] ++ py "destination" ++ [34] ++ py ": " ++ [34]
          ++ py "Paris" ++ [34] ++ py ", " ++ [34] ++ py "price" ++ [34]
          ++ py ": 199}}")%N).
Proof. reflexivity. Qed.

(** The frame of a turn, whatever the two clock readings are: the pair comes
    from the first reading, the price from the second. *)
Lemma deal_message_readings (t1 t2 : Z) :
  exists origin destination,
    cities !! Z.to_nat (t1 mod 6) = Some (origin, destination)
    /\ deal_message t1 t2 =
       Return (Json.dumps (deal_envelope origin destination (199 + t2 mod 500))).
Proof.
  unfold deal_message. change (Z.of_nat (length cities)) with 6.
  pose proof (Z.mod_pos_bound t1 6 eq_refl) as Hr.
  remember (t1 mod 6) as r eqn:Er. clear Er.
  assert (r = 0 \/ r = 1 \/ r = 2 \/ r = 3 \/ r = 4 \/ r = 5) as Hc by lia.
  destruct Hc as [-> | [-> | [-> | [-> | [-> | ->]]]]];
    eexists _, _; split; reflexivity.
Qed.

(** A turn of the loop whose two clock readings are both [t] sends the
    envelope whose pair is entry [t mod 6] of the six cities, whose route
    joins the pair with an arrow, whose destination is the second of the pair
    and whose price is [199 + t mod 500]. *)
Theorem deal_tick_formula (t : Z) (sleeps : option Exn) (sent : list PyStr.t) :
  exists origin destination,
    length cities = 6%nat
    /\ 0 <= t mod 6 < 6
    /\ cities !! Z.to_nat (t mod 6) = Some (origin, destination)
    /\ 199 <= 199 + t mod 500 <= 698
    /\ deal_message t t =
       Return (Json.dumps (deal_envelope origin destination (199 + t mod 500)))
    /\ (iteration {| now_route := t; now_price := t; send_raises := None;
                     sleep_raises := sleeps |} sent).2
       = sent ++ [Json.dumps (deal_envelope origin destination (199 + t mod 500))].
Proof.
  destruct (deal_message_readings t t) as (o & d & Hc & Hm).
  exists o, d.
  pose proof (Z.mod_pos_bound t 6 eq_refl).
  pose proof (Z.mod_pos_bound t 500 eq_refl).
  repeat split; try lia; try assumption.
  unfold iteration, bind, send_text, sleep. cbn [now_route now_price send_raises sleep_raises].
  rewrite Hm. destruct sleeps; reflexivity.
Qed.

Lemma iteration_run (tk : Tick) (sent : list PyStr.t) :
  exists msg, deal_message (now_route tk) (now_price tk) = Return msg /\
    iteration tk sent =
    match send_raises tk, sleep_raises tk with
    | Some e, _ => (Raise e, sent)
    | None, Some e => (Raise e, sent ++ [msg])
    | None, None => (Return tt, sent ++ [msg])
    end.
Proof.
  destruct (deal_message_readings (now_route tk) (now_price tk)) as (o & d & _ & Hm).
  eexists. split; [exact Hm|].
  unfold iteration, bind, send_text, sleep. rewrite Hm.
  destruct (send_raises tk), (sleep_raises tk); reflexivity.
Qed.

(** The loop against [env]: it stops at the first exception, and goes on
    otherwise; it has sent [frames_sent env] frames by then. *)
Lemma while_true_run (env : list Tick) (sent : list PyStr.t) :
  exists frames, length frames = frames_sent env /\
    while_true env sent =
    match first_raise env with
    | Some e => (Raise e, sent ++ frames)
    | None => (Return Streaming, sent ++ frames)
    end.
Proof.
  revert sent. induction env as [|tk env IH]; intros sent.
  - exists []. rewrite app_nil_r. split; reflexivity.
  - cbn [while_true first_raise frames_sent]. unfold bind, tick_raises.
    destruct (iteration_run tk sent) as (msg & _ & ->).
    destruct (send_raises tk) as [e|].
    + exists []. rewrite app_nil_r. split; reflexivity.
    + destruct (sleep_raises tk) as [e|].
      * exists [msg]. split; reflexivity.
      * destruct (IH (sent ++ [msg])) as (fr & Hlen & ->).
        exists (msg :: fr). split; [cbn; lia|].
        rewrite <- app_assoc. reflexivity.
Qed.

(** C8, as the code has it: over any number of turns in which nothing raises
    the streamer is still in its loop, one frame sent a turn; it returns
    normally exactly when the first exception raised in the loop is the
    disconnect; any other exception ends the loop too, and leaves the
    streamer as that error. *)
Theorem deals_streamer_exits (env : list Tick) :
  length (deals_streamer None env).2 = frames_sent env
  /\ (deals_streamer None env).1 =
     match first_raise env with
     | None => Streaming
     | Some e => if is_disconnect e then Closed else Failed e
     end
  /\ ((deals_streamer None env).1 = Closed <-> first_raise env = Some WebSocketDisconnect)
  /\ ((deals_streamer None env).1 = Streaming <-> first_raise env = None)
  /\ (forall n t, (deals_streamer None (repeat (quiet_tick t) n)).1 = Streaming
                  /\ length (deals_streamer None (repeat (quiet_tick t) n)).2 = n).
Proof.
  assert (forall env,
    length (deals_streamer None env).2 = frames_sent env
    /\ (deals_streamer None env).1 =
       match first_raise env with
       | None => Streaming
       | Some e => if is_disconnect e then Closed else Failed e
       end) as Hrun.
  { intros env0. unfold deals_streamer, try_except.
    destruct (while_true_run env0 []) as (fr & Hlen & ->).
    destruct (first_raise env0) as [e|]; cbn [app].
    - destruct e; cbn [is_disconnect ret fst snd]; auto.
    - cbn [fst snd]; auto. }
  assert (forall n t, first_raise (repeat (quiet_tick t) n) = None
                      /\ frames_sent (repeat (quiet_tick t) n) = n) as Hq.
  { induction n as [|n IH]; intros t; [split; reflexivity|].
    destruct (IH t) as [H1 H2]. cbn. rewrite H1, H2. auto. }
  destruct (Hrun env) as [Hlen Hst].
  split; [exact Hlen|]. split; [exact Hst|].
  split; [|split].
  - rewrite Hst. destruct (first_raise env) as [e|]; [|split; discriminate].
    destruct e; cbn [is_disconnect]; split; congruence.
  - rewrite Hst. destruct (first_raise env) as [e|]; [|split; reflexivity].
    destruct (is_disconnect e); split; discriminate.
  - intros n t. destruct (Hrun (repeat (quiet_tick t) n)) as [H1 H2].
    destruct (Hq n t) as [H3 H4]. rewrite H2, H1, H3, H4. auto.
Qed.

(** C8 as it is written fails: a task cancelled in its sleep leaves the loop,
    and no disconnect was raised. *)
Lemma deals_streamer_exit_without_disconnect :
  first_raise cancelled_env <> Some WebSocketDisconnect
  /\ (deals_streamer None cancelled_env).1 = Failed CancelledError
  /\ (deals_streamer None cancelled_env).1 <> Streaming.
Proof. repeat split; vm_compute; discriminate. Qed.

Lemma deals_streamer_exits_witness :
  (deals_streamer None [quiet_tick 7; {| now_route := 8; now_price := 8;
       send_raises := Some WebSocketDisconnect; sleep_raises := None |}]).1 = Closed.
Proof.
  apply (deals_streamer_exits [quiet_tick 7; {| now_route := 8; now_price := 8;
       send_raises := Some WebSocketDisconnect; sleep_raises := None |}]).
  reflexivity.
Defined.

Local Close Scope Z_scope.

(** ** The health probe *)

Section ProbeProperties.

Variable str_exn : Exn -> PyStr.t.


End ProbeProperties.


Example test_database_failing_store :
  exists resp,
    (test_database toy_str (world_of (Some failing_store))).1 = Return resp
    /\ Dict.get (py "database") resp =
       Some (VStr (py "⚠️ Connected but Error: connection refused: " ++ repeat 120 60))
    /\ Dict.get (py "connection_status") resp = Some (VStr (py "Not Connected")).
Proof. eexists. split; [reflexivity|]. split; vm_compute; reflexivity. Qed.

(** ** The registration handler *)

Lemma doc_matches_email (e : PyStr.t) (d : StoredDoc) :
  doc_matches (email_query e) d = true
  <-> Dict.get (py "email") (doc_fields d) = Some (VStr e).
Proof.
  unfold doc_matches, email_query, field_matches. cbn [forallb fst snd].
  rewrite andb_true_r.
  change (Dict.get (py "email") (as_dict d))
    with (Dict.get (py "email") (doc_fields d)).
  destruct (Dict.get (py "email") (doc_fields d)) as [[s| | | |]|];
    try (split; intros H; discriminate H).
  unfold PyStr.eqb. rewrite bool_decide_eq_true.
  split; [intros -> | intros [= ->]]; reflexivity.
Qed.

(** [find_one] finds a record, and a true one, exactly when the store holds
    a credential record for the email. *)
Lemma found_iff_has_credential (st : Store) (e : PyStr.t) :
  truthy_found
    (as_dict <$> List.find (doc_matches (email_query e)) (collection st (py "authuser")))
  = true <-> has_credential st e.
Proof.
  unfold has_credential.
  destruct (List.find _ _) as [d|] eqn:Hf; cbn.
  - apply find_some in Hf as [Hin Hm]. split; [intros _ | reflexivity].
    exists d. split; [exact Hin | apply doc_matches_email, Hm].
  - split; [discriminate|]. intros (d & Hin & Hd).
    apply doc_matches_email in Hd.
    pose proof (find_none _ _ Hf d Hin) as Hn. cbv beta in Hn. congruence.
Qed.

Section RegisterProperties.

Variable scrypt : PyBytes.t -> PyBytes.t -> N -> N -> N -> nat -> PyBytes.t.
Variable object_id : Store -> PyStr.t.

Hypothesis scrypt_length :
  forall pw salt n r p dklen, length (scrypt pw salt n r p dklen) = dklen.

(** The handler, path by path. *)
Lemma register_run (req : RegisterRequest) (w : World) :
  register scrypt object_id req w =
  match w_db w with
  | None => (Raise (HTTPException 500 (py "Database not configured")), w)
  | Some st =>
      let w1 := log (OpFindOne (py "authuser") (email_query (email req))) w in
      if truthy_found
           (as_dict <$> List.find (doc_matches (email_query (email req)))
                          (collection st (py "authuser")))
      then (Raise (HTTPException 400 (py "Email already registered")), w1)
      else
        let salt := map (w_entropy w) (seq 0 16) in
        let w2 := with_entropy (fun i => w_entropy w (16 + i)%nat) w1 in
        match PyBytes.utf8_encode (password req) with
        | None => (Raise UnicodeEncodeError, w2)
        | Some pw =>
            let doc := credential_doc req (PyBytes.hex salt)
                         (PyBytes.hex (scrypt pw salt (2 ^ 14) 8 1 32)) in
            (Return [(py "id", VStr (object_id st)); (py "email", VStr (email req))],
             log (OpInsertOne (py "authuser") doc)
               (with_db (insert_one st (py "authuser") (object_id st) doc) w2))
        end
  end.
Proof.
  unfold register, bind at 1. unfold get_db.
  destruct (w_db w) as [st|] eqn:Hdb; [|reflexivity].
  unfold bind at 1. unfold find_one. rewrite Hdb. fold (email_query (email req)).
  cbv zeta.
  destruct (truthy_found _); [reflexivity|].
  unfold bind at 1. rewrite hash_password_fresh. cbv zeta.
  cbn [w_entropy log].
  destruct (PyBytes.utf8_encode (password req)) as [pw|]; [|reflexivity].
  unfold bind, create_document, ret. cbn [w_db with_entropy log fst snd].
  rewrite Hdb. reflexivity.
Qed.

(** C7: without a database handle the handler raises the 500 error at once;
    the world is as it was, so nothing was looked up and nothing inserted. *)
Theorem register_without_db (req : RegisterRequest) (w : World) :
  w_db w = None ->
  register scrypt object_id req w
  = (Raise (HTTPException 500 (py "Database not configured")), w)
  /\ w_trace (register scrypt object_id req w).2 = w_trace w
  /\ filter is_find (w_trace (register scrypt object_id req w).2) = filter is_find (w_trace w)
  /\ filter is_insert (w_trace (register scrypt object_id req w).2)
     = filter is_insert (w_trace w).
Proof.
  intros Hdb. rewrite register_run, Hdb. repeat split.
Qed.

Lemma collection_insert_one (st : Store) (name id : PyStr.t) (doc : Dict.t) :
  collection (insert_one st name id doc) name
  = collection st name ++ [{| doc_id := id; doc_fields := doc |}]
  /\ forall other, other <> name ->
       collection (insert_one st name id doc) other = collection st other.
Proof.
  unfold collection, insert_one. cbn [st_collections]. split.
  - rewrite lookup_insert_eq. reflexivity.
  - intros other Hne. rewrite lookup_insert_ne by congruence. reflexivity.
Qed.

Lemma filter_insert_log (tr : list StoreOp) (op : StoreOp) :
  filter is_insert (tr ++ [op])
  = filter is_insert tr ++ (if is_insert op then [op] else []).
Proof.
  rewrite filter_app. f_equal. cbn. destruct op; reflexivity.
Qed.


(** C2, as the code has it: on a configured store without a record for the
    email, and for a password that UTF-8 can encode, the handler returns the
    body
    [{id, email}], the identifier being the one the store assigned to the
    inserted document and the email the request's; it makes one insert, of a
    record whose provider is ["email"]. Whenever it raises instead, it has
    made no insert and the store is the one it was. *)
Theorem register_response (req : RegisterRequest) (w : World) :
  (forall st, w_db w = Some st ->
     ~ has_credential st (email req) ->
     PyStr.well_formed (password req) = true ->
     exists doc : Dict.t,
       (register scrypt object_id req w).1
         = Return [(py "id", VStr (object_id st)); (py "email", VStr (email req))]
       /\ w_trace (register scrypt object_id req w).2
          = w_trace w ++ [OpFindOne (py "authuser") (email_query (email req));
                          OpInsertOne (py "authuser") doc]
       /\ Dict.get (py "provider") doc = Some (VStr (py "email"))
       /\ Dict.get (py "email") doc = Some (VStr (email req))
       /\ w_db (register scrypt object_id req w).2
          = Some (insert_one st (py "authuser") (object_id st) doc))
  /\ (forall e, (register scrypt object_id req w).1 = Raise e ->
        w_db (register scrypt object_id req w).2 = w_db w
        /\ filter is_insert (w_trace (register scrypt object_id req w).2)
           = filter is_insert (w_trace w)).
Proof.
  split.
  - intros st Hdb Hc Hp.
    assert (truthy_found
              (as_dict <$> List.find (doc_matches (email_query (email req)))
                             (collection st (py "authuser"))) = false) as Hf.
    { destruct (truthy_found _) eqn:E; [|reflexivity].
      exfalso. apply Hc, found_iff_has_credential, E. }
    destruct (utf8_encode_well_formed _ Hp) as [pw Hpw].
    rewrite register_run, Hdb. cbv zeta. rewrite Hf, Hpw.
    eexists. cbn [fst snd log with_db with_entropy w_db w_trace].
    split; [reflexivity|].
    split; [rewrite <- app_assoc; reflexivity|].
    repeat split.
  - intros e. rewrite register_run.
    destruct (w_db w) as [st|] eqn:Hdb;
      [|intros _; cbn [snd]; split; [exact Hdb | reflexivity]].
    cbv zeta. destruct (truthy_found _).
    + intros _. cbn [fst snd log w_db w_trace]. rewrite filter_insert_log.
      cbn [is_insert]. rewrite app_nil_r. split; [exact Hdb | reflexivity].
    + destruct (PyBytes.utf8_encode (password req)); [discriminate|].
      intros _. cbn [fst snd log with_entropy w_db w_trace].
      rewrite filter_insert_log.
      cbn [is_insert]. rewrite app_nil_r. split; [exact Hdb | reflexivity].
Qed.


End RegisterProperties.

(** ** The handlers on a concrete store *)

Lemma register_without_db_witness :
  register toy_scrypt toy_object_id {| email := alice; password := py "hunter2" |}
    (world_of None)
  = (Raise (HTTPException 500 (py "Database not configured")), world_of None).
Proof.
  apply (register_without_db toy_scrypt toy_object_id
           {| email := alice; password := py "hunter2" |} (world_of None)).
  reflexivity.
Defined.

Lemma empty_store_no_credential (e : PyStr.t) : ~ has_credential empty_store e.
Proof. intros (d & Hin & _). exact Hin. Qed.


Lemma register_response_witness :
  exists doc : Dict.t,
    (register toy_scrypt toy_object_id {| email := alice; password := py "hunter2" |}
       (world_of (Some empty_store))).1
    = Return [(py "id", VStr (py "0")); (py "email", VStr alice)]
    /\ Dict.get (py "provider") doc = Some (VStr (py "email")).
Proof.
  destruct (register_response toy_scrypt toy_object_id
              {| email := alice; password := py "hunter2" |}
              (world_of (Some empty_store))) as [H _].
  destruct (H empty_store eq_refl (empty_store_no_credential alice) eq_refl)
    as (doc & H1 & _ & H3 & _).
  exists doc. split; [exact H1 | exact H3].
Defined.


(** * Further properties of the code *)

(** ** [hash_password]: supplied salts *)

Lemma fromhex_spaces (ws r : PyStr.t) :
  all_space ws = true -> PyBytes.fromhex (ws ++ r) = PyBytes.fromhex r.
Proof.
  unfold all_space. induction ws as [|c ws IH]; [reflexivity|].
  cbn [forallb]. intros [Hc Hws]%andb_true_iff.
  cbn [app PyBytes.fromhex]. rewrite Hc. exact (IH Hws).
Qed.

Lemma fromhex_pair_any (c d : N) :
  pair_ok c d = true ->
  exists b, forall s, PyBytes.fromhex (c :: d :: s) = cons b <$> PyBytes.fromhex s.
Proof.
  unfold pair_ok. intros H.
  apply andb_true_iff in H as [Hs H]. apply negb_true_iff in Hs.
  destruct (PyBytes.digit_value c) as [top|] eqn:Dc; [|discriminate].
  destruct (PyBytes.digit_value d) as [bot|] eqn:Dd; [|discriminate].
  exists (PyBytes.byte_of_N (16 * top + bot)). intros s.
  cbn [PyBytes.fromhex]. rewrite Hs, Dc, Dd. reflexivity.
Qed.

Lemma fromhex_valid_app (s : PyStr.t) :
  PyBytes.valid_hex s = true ->
  exists bs, PyBytes.fromhex s = Some bs
             /\ forall r, PyBytes.fromhex (s ++ r) = (bs ++.) <$> PyBytes.fromhex r.
Proof.
  unfold PyBytes.valid_hex.
  induction s as [| a | a b l IH] using pair_induction; intros H.
  - exists []. split; [reflexivity|]. intros r. cbn [app].
    destruct (PyBytes.fromhex r); reflexivity.
  - apply andb_true_iff in H as [_ H]. discriminate H.
  - apply andb_true_iff in H as [H Hev]. cbn [forallb] in H.
    apply andb_true_iff in H as [Ha H]. apply andb_true_iff in H as [Hb Hl].
    destruct IH as (bs & Hbs & Happ). { rewrite Hl. exact Hev. }
    destruct (fromhex_pair_any a b (pair_ok_hex a b Ha Hb)) as (x & Hx).
    exists (x :: bs). split; [rewrite Hx, Hbs; reflexivity|].
    intros r. cbn [app]. rewrite Hx, Happ.
    destruct (PyBytes.fromhex r); reflexivity.
Qed.

Lemma fromhex_bad_char (c : N) :
  PyBytes.is_hex_char c = false -> PyBytes.is_space c = false ->
  forall s, In c s -> PyBytes.fromhex s = None.
Proof.
  intros Hh Hs.
  assert (PyBytes.digit_value c = None) as Hd.
  { unfold PyBytes.is_hex_char in Hh.
    destruct (PyBytes.digit_value c); [discriminate | reflexivity]. }
  assert (forall s, (In c s -> PyBytes.fromhex s = None)
                    /\ forall a, In c (a :: s) -> PyBytes.fromhex (a :: s) = None)
    as H; [|intros s; apply H].
  induction s as [|x s [IH1 IH2]].
  - split; [intros []|]. intros a [<-|[]]. cbn. rewrite Hs, Hd. reflexivity.
  - split; [exact (IH2 x)|].
    intros a Hin. cbn [PyBytes.fromhex].
    destruct (PyBytes.is_space a) eqn:Ea.
    + apply IH2. destruct Hin as [<-|Hin]; [congruence | exact Hin].
    + destruct (PyBytes.digit_value a) eqn:Da; [|reflexivity].
      destruct (PyBytes.digit_value x) eqn:Dx; [|reflexivity].
      rewrite IH1; [reflexivity|].
      destruct Hin as [<-|[<-|Hin]]; [congruence | congruence | exact Hin].
Qed.

Lemma fromhex_odd_digits (s : PyStr.t) :
  forallb PyBytes.is_hex_char s = true -> Nat.odd (length s) = true ->
  PyBytes.fromhex s = None.
Proof.
  induction s as [| a | a b l IH] using pair_induction; intros Hh Ho.
  - discriminate Ho.
  - cbn [forallb] in Hh. apply andb_true_iff in Hh as [Ha _].
    pose proof (pair_ok_hex a a Ha Ha) as Hok. unfold pair_ok in Hok.
    apply andb_true_iff in Hok as [Hs%negb_true_iff _].
    cbn. rewrite Hs. destruct (PyBytes.digit_value a); reflexivity.
  - cbn [forallb] in Hh.
    apply andb_true_iff in Hh as [Ha Hh]. apply andb_true_iff in Hh as [Hb Hl].
    destruct (fromhex_pair a b l (pair_ok_hex a b Ha Hb)) as (x & -> & _).
    rewrite (IH Hl Ho). reflexivity.
Qed.

Lemma hex_injective (a b : PyBytes.t) : PyBytes.hex a = PyBytes.hex b -> a = b.
Proof.
  intros H. apply (f_equal PyBytes.fromhex) in H.
  rewrite !fromhex_hex in H. injection H as H. exact H.
Qed.

Section HasherExtras.

Variable scrypt : PyBytes.t -> PyBytes.t -> N -> N -> N -> nat -> PyBytes.t.

(** X1: a supplied salt that holds a character which is neither a
    hexadecimal digit nor ASCII whitespace makes the hasher raise
    [ValueError], before the password is looked at and without touching the
    random source. *)
Theorem hash_password_rejects_bad_salt (p s : PyStr.t) (c : N) (w : World) :
  In c s -> PyBytes.is_hex_char c = false -> PyBytes.is_space c = false ->
  hash_password scrypt p (Some s) w = (Raise ValueError, w).
Proof.
  intros Hin Hh Hs. rewrite hash_password_supplied.
  rewrite (fromhex_bad_char c Hh Hs s Hin). reflexivity.
Qed.

(** X2: a supplied salt with an odd number of hexadecimal digits makes the
    hasher raise [ValueError]. *)
Theorem hash_password_rejects_odd_salt (p s : PyStr.t) (w : World) :
  forallb PyBytes.is_hex_char s = true -> Nat.odd (length s) = true ->
  hash_password scrypt p (Some s) w = (Raise ValueError, w).
Proof.
  intros Hh Ho. rewrite hash_password_supplied.
  rewrite (fromhex_odd_digits s Hh Ho). reflexivity.
Qed.

(** X3: the case of the letters of a supplied salt does not matter: the
    salt and its lowercase form give the same result, key included. *)
Theorem hash_password_salt_case (p s : PyStr.t) (w : World) :
  PyBytes.valid_hex s = true ->
  hash_password scrypt p (Some s) w = hash_password scrypt p (Some (PyStr.lower s)) w.
Proof.
  intros Hs. destruct (hex_fromhex_lower s Hs) as (bs & Hbs & Hhex & _).
  rewrite !hash_password_supplied, Hbs, <- Hhex, fromhex_hex. reflexivity.
Qed.

(** X4: whitespace around a supplied salt is dropped: the result is that of
    the salt without it, so the salt returned is not the string supplied. *)
Theorem hash_password_salt_whitespace (p ws s ws' : PyStr.t) (w : World) :
  all_space ws = true -> all_space ws' = true -> PyBytes.valid_hex s = true ->
  hash_password scrypt p (Some (ws ++ s ++ ws')) w = hash_password scrypt p (Some s) w.
Proof.
  intros Hws Hws' Hs.
  destruct (fromhex_valid_app s Hs) as (bs & Hbs & Happ).
  rewrite !hash_password_supplied, fromhex_spaces, Happ, Hbs by exact Hws.
  rewrite <- (app_nil_r ws'), fromhex_spaces by exact Hws'.
  cbn [PyBytes.fromhex fmap option_fmap option_map]. rewrite app_nil_r. reflexivity.
Qed.

(** X5: a call without a salt takes the next 16 bytes of the random source
    as salt and leaves store, environment and trace alone; the call after it
    takes the 16 bytes that follow, and the two salts are the same text only
    if the two blocks of bytes are the same. *)
Theorem hash_password_fresh_draws (p1 p2 : PyStr.t) (w : World) :
  PyStr.well_formed p1 = true -> PyStr.well_formed p2 = true ->
  exists k1 k2 : PyStr.t,
    (hash_password scrypt p1 None w).1
      = Return (PyBytes.hex (map (w_entropy w) (seq 0 16)), k1)
    /\ w_db (hash_password scrypt p1 None w).2 = w_db w
    /\ w_environ (hash_password scrypt p1 None w).2 = w_environ w
    /\ w_trace (hash_password scrypt p1 None w).2 = w_trace w
    /\ (hash_password scrypt p2 None (hash_password scrypt p1 None w).2).1
       = Return (PyBytes.hex (map (w_entropy w) (seq 16 16)), k2)
    /\ (PyBytes.hex (map (w_entropy w) (seq 0 16))
        = PyBytes.hex (map (w_entropy w) (seq 16 16))
        -> map (w_entropy w) (seq 0 16) = map (w_entropy w) (seq 16 16)).
Proof.
  intros H1 H2.
  destruct (utf8_encode_well_formed p1 H1) as [b1 Hb1].
  destruct (utf8_encode_well_formed p2 H2) as [b2 Hb2].
  eexists _, _. rewrite !hash_password_fresh. cbv zeta. rewrite Hb1.
  cbn [fst snd with_entropy w_db w_environ w_trace w_entropy]. rewrite Hb2.
  split; [reflexivity|]. split; [reflexivity|]. split; [reflexivity|].
  split; [reflexivity|]. split; [reflexivity|]. apply hex_injective.
Qed.

End HasherExtras.

Lemma hash_password_rejects_bad_salt_witness :
  hash_password toy_scrypt [0xD800] (Some (py "0g")) (world_of None)
  = (Raise ValueError, world_of None).
Proof.
  apply (hash_password_rejects_bad_salt toy_scrypt [0xD800] (py "0g") 103
           (world_of None)).
  - right. left. reflexivity.
  - reflexivity.
  - reflexivity.
Defined.

Lemma hash_password_rejects_odd_salt_witness :
  hash_password toy_scrypt (py "hunter2") (Some (py "abc")) (world_of None)
  = (Raise ValueError, world_of None).
Proof.
  apply (hash_password_rejects_odd_salt toy_scrypt (py "hunter2") (py "abc")
           (world_of None)); reflexivity.
Defined.

Lemma hash_password_salt_case_witness :
  hash_password toy_scrypt (py "hunter2") (Some (py "0AfF")) (world_of None)
  = hash_password toy_scrypt (py "hunter2") (Some (py "0aff")) (world_of None).
Proof.
  apply (hash_password_salt_case toy_scrypt (py "hunter2") (py "0AfF") (world_of None)).
  reflexivity.
Defined.

Lemma hash_password_salt_whitespace_witness :
  hash_password toy_scrypt (py "hunter2") (Some (py "  0aff ")) (world_of None)
  = hash_password toy_scrypt (py "hunter2") (Some (py "0aff")) (world_of None).
Proof.
  apply (hash_password_salt_whitespace toy_scrypt (py "hunter2") (py "  ") (py "0aff")
           (py " ") (world_of None)); reflexivity.
Defined.

Lemma hash_password_fresh_draws_witness :
  exists k1 k2 : PyStr.t,
    (hash_password toy_scrypt (py "hunter2") None (world_of None)).1
      = Return (PyBytes.hex (map zero_entropy (seq 0 16)), k1)
    /\ (hash_password toy_scrypt (py "correct horse") None
          (hash_password toy_scrypt (py "hunter2") None (world_of None)).2).1
       = Return (PyBytes.hex (map zero_entropy (seq 16 16)), k2).
Proof.
  destruct (hash_password_fresh_draws toy_scrypt (py "hunter2") (py "correct horse")
              (world_of None) eq_refl eq_refl)
    as (k1 & k2 & H1 & _ & _ & _ & H2 & _).
  exists k1, k2. split; [exact H1 | exact H2].
Defined.

(** ** [test_database]: the report, case by case *)

Section ProbeExtras.

Variable str_exn : Exn -> PyStr.t.

(** The probe on a configured store, by what the listing does. *)
Lemma test_database_run (st : Store) (environ : PyStr.t -> option PyStr.t)
    (entropy : nat -> byte) (trace : list StoreOp) :
  test_database str_exn
    {| w_db := Some st; w_environ := environ; w_entropy := entropy; w_trace := trace |}
  = let w' := {| w_db := Some st; w_environ := environ; w_entropy := entropy;
                 w_trace := trace ++ [OpListCollectionNames] |} in
    let url := set_or_not (environ (py "DATABASE_URL")) in
    let name := set_or_not (environ (py "DATABASE_NAME")) in
    match st_fault st with
    | None =>
        (Return [(py "backend", VStr (py "✅ Running"));
                 (py "database", VStr (py "✅ Connected & Working"));
                 (py "database_url", url);
                 (py "database_name", name);
                 (py "connection_status", VStr (py "Connected"));
                 (py "collections",
                  VList (take 10 (map fst (map_to_list (st_collections st)))))], w')
    | Some e =>
        if is_Exception e
        then (Return [(py "backend", VStr (py "✅ Running"));
                      (py "database",
                       VStr (py "⚠️ Connected but Error: "
                             ++ PyStr.slice_to 80 (str_exn e)));
                      (py "database_url", url);
                      (py "database_name", name);
                      (py "connection_status", VStr (py "Not Connected"));
                      (py "collections", VList [])], w')
        else (Raise e, w')
    end.
Proof.
  unfold test_database, test_database_body, try_except, bind, in_world,
    get_db, getenv, list_collection_names, set_item, ret.
  cbn [w_db fr_world fr_response w_environ].
  generalize (set_or_not (environ (py "DATABASE_URL"))). intros url.
  generalize (set_or_not (environ (py "DATABASE_NAME"))). intros name.
  cbv zeta. destruct (st_fault st) as [e|].
  - cbn [fst snd fr_world fr_response log w_db w_environ w_entropy w_trace].
    destruct (is_Exception e) eqn:He; cbn [fst snd]; rewrite ?He; reflexivity.
  - generalize (map fst (map_to_list (st_collections st))). intros names.
    reflexivity.
Qed.

Lemma test_database_none (environ : PyStr.t -> option PyStr.t)
    (entropy : nat -> byte) (trace : list StoreOp) :
  (test_database str_exn
     {| w_db := None; w_environ := environ; w_entropy := entropy; w_trace := trace |}).1
  = Return [(py "backend", VStr (py "✅ Running"));
            (py "database", VStr (py "⚠️ Available but not initialized"));
            (py "database_url", VStr (py "❌ Not Set"));
            (py "database_name", VStr (py "❌ Not Set"));
            (py "connection_status", VStr (py "Not Connected"));
            (py "collections", VList [])].
Proof. reflexivity. Qed.

(** X6: without a database handle the probe returns one fixed report: the
    database is "available but not initialized", nothing is connected, and
    the two configuration values are reported as not set whatever the
    environment holds. The world is left as it was. *)
Theorem test_database_unconfigured (w : World) :
  w_db w = None ->
  test_database str_exn w
  = (Return [(py "backend", VStr (py "✅ Running"));
             (py "database", VStr (py "⚠️ Available but not initialized"));
             (py "database_url", VStr (py "❌ Not Set"));
             (py "database_name", VStr (py "❌ Not Set"));
             (py "connection_status", VStr (py "Not Connected"));
             (py "collections", VList [])], w).
Proof.
  destruct w as [db environ entropy trace]. cbn [w_db]. intros ->. reflexivity.
Qed.

(** X7: the report says "Connected" exactly when there is a store and its
    listing did not raise; the database field then reads "Connected &
    Working" and the collections are the first ten names of the listing. *)
Theorem test_database_connected (w : World) :
  ((exists resp, (test_database str_exn w).1 = Return resp
                 /\ Dict.get (py "connection_status") resp = Some (VStr (py "Connected")))
   <-> exists st, w_db w = Some st /\ st_fault st = None)
  /\ (forall st, w_db w = Some st -> st_fault st = None ->
      exists resp, (test_database str_exn w).1 = Return resp
        /\ Dict.get (py "database") resp = Some (VStr (py "✅ Connected & Working"))
        /\ Dict.get (py "collections") resp
           = Some (VList (take 10 (map fst (map_to_list (st_collections st)))))).
Proof.
  destruct w as [db environ entropy trace]. cbn [w_db]. split.
  - destruct db as [st|].
    + rewrite test_database_run. cbv zeta. destruct (st_fault st) as [e|] eqn:Hf.
      * split.
        -- intros (resp & Hr & Hc). destruct (is_Exception e); [|discriminate Hr].
           cbn [fst] in Hr. injection Hr as <-. vm_compute in Hc. discriminate Hc.
        -- intros (st' & [= <-] & Hf'). congruence.
      * split; [intros _; eauto|]. intros _. eexists. split; [reflexivity|].
        vm_compute. reflexivity.
    + split; [|intros (st & [=] & _)].
      intros (resp & Hr & Hc). rewrite test_database_none in Hr.
      injection Hr as <-. vm_compute in Hc. discriminate Hc.
  - intros st -> Hf. rewrite test_database_run, Hf. cbv zeta. cbn [fst].
    eexists. split; [reflexivity|]. split; vm_compute; reflexivity.
Qed.

(** X8: the report shows the two configuration values by presence only: two
    environments in which each of the two variables is set (and not empty) or
    not in both give the same report; the values themselves never reach it. *)
Theorem test_database_presence_only (w1 w2 : World) :
  w_db w1 = w_db w2 ->
  truthy_env (w_environ w1 (py "DATABASE_URL"))
    = truthy_env (w_environ w2 (py "DATABASE_URL")) ->
  truthy_env (w_environ w1 (py "DATABASE_NAME"))
    = truthy_env (w_environ w2 (py "DATABASE_NAME")) ->
  (test_database str_exn w1).1 = (test_database str_exn w2).1.
Proof.
  destruct w1 as [db1 env1 ent1 tr1], w2 as [db2 env2 ent2 tr2].
  cbn [w_db w_environ]. intros <- Hu Hn.
  destruct db1 as [st|]; [|reflexivity].
  rewrite !test_database_run. cbv zeta. unfold set_or_not. rewrite Hu, Hn.
  destruct (st_fault st) as [e|]; [destruct (is_Exception e)|]; reflexivity.
Qed.

(** X9: the probe only reads: store, environment and random source are the
    ones it was given, and the only store operation it adds to the trace is
    the listing, once, when there is a store. *)
Theorem test_database_read_only (w : World) :
  w_db (test_database str_exn w).2 = w_db w
  /\ w_environ (test_database str_exn w).2 = w_environ w
  /\ w_entropy (test_database str_exn w).2 = w_entropy w
  /\ w_trace (test_database str_exn w).2
     = w_trace w ++ match w_db w with
                    | Some _ => [OpListCollectionNames]
                    | None => []
                    end.
Proof.
  destruct w as [db environ entropy trace]. destruct db as [st|].
  - rewrite test_database_run. cbv zeta.
    destruct (st_fault st) as [e|]; [destruct (is_Exception e)|];
      repeat split.
  - cbn [w_db w_trace]. rewrite app_nil_r. repeat split.
Qed.

(** X10: an exception of the listing that is not of class [Exception] (a
    cancellation) is caught by neither handler: the probe raises it. *)
Theorem test_database_propagates (w : World) (st : Store) (e : Exn) :
  w_db w = Some st -> st_fault st = Some e -> is_Exception e = false ->
  (test_database str_exn w).1 = Raise e.
Proof.
  destruct w as [db environ entropy trace]. cbn [w_db]. intros -> Hf He.
  rewrite test_database_run, Hf, He. reflexivity.
Qed.

End ProbeExtras.

Lemma test_database_unconfigured_witness :
  (test_database toy_str
     {| w_db := None; w_environ := set_environ (py "DATABASE_URL") (py "mongodb://x");
        w_entropy := zero_entropy; w_trace := [] |}).1
  = Return [(py "backend", VStr (py "✅ Running"));
            (py "database", VStr (py "⚠️ Available but not initialized"));
            (py "database_url", VStr (py "❌ Not Set"));
            (py "database_name", VStr (py "❌ Not Set"));
            (py "connection_status", VStr (py "Not Connected"));
            (py "collections", VList [])].
Proof.
  rewrite (test_database_unconfigured toy_str
     {| w_db := None; w_environ := set_environ (py "DATABASE_URL") (py "mongodb://x");
        w_entropy := zero_entropy; w_trace := [] |} eq_refl).
  reflexivity.
Defined.

Lemma test_database_connected_witness :
  exists resp, (test_database toy_str (world_of (Some empty_store))).1 = Return resp
    /\ Dict.get (py "connection_status") resp = Some (VStr (py "Connected")).
Proof.
  apply (test_database_connected toy_str (world_of (Some empty_store))).
  exists empty_store. split; reflexivity.
Defined.

Lemma test_database_presence_only_witness :
  (test_database toy_str
     {| w_db := Some empty_store;
        w_environ := set_environ (py "DATABASE_URL") (py "mongodb://one");
        w_entropy := zero_entropy; w_trace := [] |}).1
  = (test_database toy_str
     {| w_db := Some empty_store;
        w_environ := set_environ (py "DATABASE_URL") (py "mongodb://two");
        w_entropy := zero_entropy; w_trace := [] |}).1.
Proof.
  apply (test_database_presence_only toy_str
     {| w_db := Some empty_store;
        w_environ := set_environ (py "DATABASE_URL") (py "mongodb://one");
        w_entropy := zero_entropy; w_trace := [] |}
     {| w_db := Some empty_store;
        w_environ := set_environ (py "DATABASE_URL") (py "mongodb://two");
        w_entropy := zero_entropy; w_trace := [] |}); reflexivity.
Defined.

Lemma test_database_propagates_witness :
  (test_database toy_str
     (world_of (Some {| st_collections := ∅; st_fault := Some CancelledError |}))).1
  = Raise CancelledError.
Proof.
  apply (test_database_propagates toy_str
           (world_of (Some {| st_collections := ∅; st_fault := Some CancelledError |}))
           {| st_collections := ∅; st_fault := Some CancelledError |} CancelledError);
    reflexivity.
Defined.

(** ** [register]: what it keeps and how calls compose *)

Lemma utf8_encode_char_not_scalar (c : N) :
  PyStr.scalar c = false -> PyBytes.utf8_encode_char c = None.
Proof.
  unfold PyStr.scalar, PyBytes.utf8_encode_char.
  destruct (c <? 128) eqn:H1, (c <? 2048) eqn:H2, (c <? 65536) eqn:H3,
    (c <? 1114112) eqn:H4, (55296 <=? c) eqn:H5, (c <=? 57343) eqn:H6;
    cbn [andb negb]; intros H; try discriminate H; try reflexivity;
    repeat match goal with
      | H : (_ <? _) = true |- _ => apply N.ltb_lt in H
      | H : (_ <? _) = false |- _ => apply N.ltb_ge in H
      | H : (_ <=? _) = true |- _ => apply N.leb_le in H
      | H : (_ <=? _) = false |- _ => apply N.leb_gt in H
      end; lia.
Qed.

Lemma utf8_encode_ill_formed (s : PyStr.t) :
  PyStr.well_formed s = false -> PyBytes.utf8_encode s = None.
Proof.
  unfold PyStr.well_formed.
  induction s as [|c s IH]; cbn [forallb PyBytes.utf8_encode]; [discriminate|].
  intros H. apply andb_false_iff in H as [H|H].
  - rewrite (utf8_encode_char_not_scalar c H). reflexivity.
  - rewrite (IH H). destruct (PyBytes.utf8_encode_char c); reflexivity.
Qed.

Lemma has_credential_emails (st : Store) (e : PyStr.t) :
  has_credential st e <-> e ∈ emails st.
Proof.
  unfold has_credential, emails. rewrite list_elem_of_omap. split.
  - intros (d & Hin & Hd). exists d. split; [apply list_elem_of_In, Hin|].
    unfold record_email. rewrite Hd. reflexivity.
  - intros (d & Hin & Hd). exists d. split; [apply list_elem_of_In, Hin|].
    unfold record_email in Hd.
    destruct (Dict.get (py "email") (doc_fields d)) as [[s| | | |]|];
      try discriminate Hd. injection Hd as ->. reflexivity.
Qed.

Section RegisterExtras.

Variable scrypt : PyBytes.t -> PyBytes.t -> N -> N -> N -> nat -> PyBytes.t.
Variable object_id : Store -> PyStr.t.

Lemma emails_insert_credential (st : Store) (id : PyStr.t) (req : RegisterRequest)
    (salt_hex hash_hex : PyStr.t) :
  emails (insert_one st (py "authuser") id (credential_doc req salt_hex hash_hex))
  = emails st ++ [email req].
Proof.
  unfold emails. rewrite (proj1 (collection_insert_one _ _ _ _)), omap_app.
  reflexivity.
Qed.

Lemma not_found (st : Store) (e : PyStr.t) :
  ~ has_credential st e ->
  truthy_found
    (as_dict <$> List.find (doc_matches (email_query e)) (collection st (py "authuser")))
  = false.
Proof.
  intros Hc. destruct (truthy_found _) eqn:E; [|reflexivity].
  exfalso. apply Hc, found_iff_has_credential, E.
Qed.

(** The successful path, with the world it leaves. *)
Lemma register_success (req : RegisterRequest) (w : World) (st : Store)
    (pw : PyBytes.t) :
  w_db w = Some st -> ~ has_credential st (email req) ->
  PyBytes.utf8_encode (password req) = Some pw ->
  register scrypt object_id req w =
  let salt := map (w_entropy w) (seq 0 16) in
  let doc := credential_doc req (PyBytes.hex salt)
               (PyBytes.hex (scrypt pw salt (2 ^ 14) 8 1 32)) in
  (Return [(py "id", VStr (object_id st)); (py "email", VStr (email req))],
   {| w_db := Some (insert_one st (py "authuser") (object_id st) doc);
      w_environ := w_environ w;
      w_entropy := fun i => w_entropy w (16 + i)%nat;
      w_trace := (w_trace w ++ [OpFindOne (py "authuser") (email_query (email req))])
                   ++ [OpInsertOne (py "authuser") doc] |}).
Proof.
  intros Hdb Hc Hpw. rewrite register_run, Hdb. cbv zeta.
  rewrite (not_found st _ Hc), Hpw. reflexivity.
Qed.

(** X11: registration keeps the emails of the user collection distinct: if
    no two records of the store carry the same email before a call, none do
    after it, whichever way the call ends; the call adds the request's email
    or nothing. *)
Theorem register_keeps_emails_unique (req : RegisterRequest) (w : World)
    (st st' : Store) :
  w_db w = Some st ->
  w_db (register scrypt object_id req w).2 = Some st' ->
  NoDup (emails st) ->
  NoDup (emails st')
  /\ (emails st' = emails st \/ emails st' = emails st ++ [email req]).
Proof.
  intros Hdb Hdb' Hnd. rewrite register_run, Hdb in Hdb'. cbv zeta in Hdb'.
  destruct (truthy_found _) eqn:Hf.
  { cbn [snd log w_db] in Hdb'. assert (st' = st) as -> by congruence. auto. }
  destruct (PyBytes.utf8_encode (password req)) as [pw|].
  2:{ cbn [snd log with_entropy w_db] in Hdb'.
      assert (st' = st) as -> by congruence. auto. }
  cbn [snd log with_db with_entropy w_db] in Hdb'. injection Hdb' as <-.
  rewrite emails_insert_credential. split; [|right; reflexivity].
  apply NoDup_app. split; [exact Hnd|]. split; [|apply NoDup_singleton].
  intros x Hx Hx'. apply list_elem_of_singleton in Hx'. subst x.
  apply has_credential_emails, found_iff_has_credential in Hx. congruence.
Qed.

(** X12: one registration does not stand in the way of another email: on a
    store that holds neither of two different emails, and for two passwords
    UTF-8 can encode, registering the first and then the second succeeds both
    times, and the store then holds both, in that order, after the records
    it had. *)
Theorem register_two_emails (req1 req2 : RegisterRequest) (w : World) (st : Store) :
  w_db w = Some st ->
  email req1 <> email req2 ->
  ~ has_credential st (email req1) -> ~ has_credential st (email req2) ->
  PyStr.well_formed (password req1) = true ->
  PyStr.well_formed (password req2) = true ->
  exists (body1 body2 : Dict.t) (st2 : Store),
    (register scrypt object_id req1 w).1 = Return body1
    /\ (register scrypt object_id req2 (register scrypt object_id req1 w).2).1
       = Return body2
    /\ w_db (register scrypt object_id req2 (register scrypt object_id req1 w).2).2
       = Some st2
    /\ emails st2 = emails st ++ [email req1; email req2]
    /\ has_credential st2 (email req1) /\ has_credential st2 (email req2).
Proof.
  intros Hdb Hne Hc1 Hc2 Hp1 Hp2.
  destruct (utf8_encode_well_formed _ Hp1) as [pw1 Hpw1].
  destruct (utf8_encode_well_formed _ Hp2) as [pw2 Hpw2].
  rewrite (register_success req1 w st pw1 Hdb Hc1 Hpw1). cbv zeta. cbn [fst snd].
  match goal with |- context [register _ _ req2 ?w1] => set (w1' := w1) end.
  match goal with w1' := {| w_db := Some ?s; w_environ := _ |} |- _ => set (st1 := s) in * end.
  assert (emails st1 = emails st ++ [email req1]) as He1
    by apply emails_insert_credential.
  assert (~ has_credential st1 (email req2)) as Hc2'.
  { rewrite has_credential_emails, He1, elem_of_app, list_elem_of_singleton.
    rewrite <- has_credential_emails. intros [H|H]; [exact (Hc2 H) | congruence]. }
  rewrite (register_success req2 w1' st1 pw2 eq_refl Hc2' Hpw2). cbv zeta.
  cbn [fst snd w_db].
  eexists _, _, _. split; [reflexivity|]. split; [reflexivity|].
  split; [reflexivity|].
  rewrite !has_credential_emails, emails_insert_credential, He1, <- app_assoc.
  split; [reflexivity|]. rewrite !elem_of_app, !elem_of_cons. auto.
Qed.


(** X14: on a configured store every call looks the email up once, in the
    user collection and before anything else it does to the store; after the
    lookup it makes at most one insert and no further lookup. *)
Theorem register_looks_up_first (req : RegisterRequest) (w : World) (st : Store) :
  w_db w = Some st ->
  exists rest : list StoreOp,
    w_trace (register scrypt object_id req w).2
    = w_trace w ++ OpFindOne (py "authuser") [(py "email", VStr (email req))] :: rest
    /\ (length rest <= 1)%nat
    /\ Forall (fun op => is_insert op = true) rest.
Proof.
  intros Hdb. rewrite register_run, Hdb. cbv zeta.
  destruct (truthy_found _).
  { exists []. cbn [snd log w_trace length]. repeat split; [lia | constructor]. }
  destruct (PyBytes.utf8_encode (password req)) as [pw|].
  - eexists [_]. cbn [snd log with_db with_entropy w_trace length].
    rewrite <- app_assoc. repeat split; [lia | repeat constructor].
  - exists []. cbn [snd log with_entropy w_trace length].
    repeat split; [lia | constructor].
Qed.

(** X15: a password that UTF-8 cannot encode (one with a lone surrogate), on
    a store without the email, makes the handler raise [UnicodeEncodeError]
    after the lookup: no record is inserted and the store is unchanged, but
    the 16 bytes of the salt have been taken from the random source. *)
Theorem register_unencodable_password (req : RegisterRequest) (w : World) (st : Store) :
  w_db w = Some st -> ~ has_credential st (email req) ->
  PyStr.well_formed (password req) = false ->
  (register scrypt object_id req w).1 = Raise UnicodeEncodeError
  /\ w_db (register scrypt object_id req w).2 = Some st
  /\ w_trace (register scrypt object_id req w).2
     = w_trace w ++ [OpFindOne (py "authuser") [(py "email", VStr (email req))]]
  /\ forall i, w_entropy (register scrypt object_id req w).2 i = w_entropy w (16 + i)%nat.
Proof.
  intros Hdb Hc Hp. rewrite register_run, Hdb. cbv zeta.
  rewrite (not_found st _ Hc), (utf8_encode_ill_formed _ Hp).
  cbn [fst snd log with_entropy w_db w_trace w_entropy]. auto.
Qed.

End RegisterExtras.

Lemma register_keeps_emails_unique_witness :
  exists st',
    w_db (register toy_scrypt toy_object_id {| email := alice; password := py "hunter2" |}
            (world_of (Some empty_store))).2 = Some st'
    /\ NoDup (emails st').
Proof.
  eexists. split; [reflexivity|].
  apply (register_keeps_emails_unique toy_scrypt toy_object_id
           {| email := alice; password := py "hunter2" |}
           (world_of (Some empty_store)) empty_store _ eq_refl eq_refl).
  constructor.
Defined.

Lemma register_two_emails_witness :
  exists (body1 body2 : Dict.t) (st2 : Store),
    (register toy_scrypt toy_object_id {| email := alice; password := py "hunter2" |}
       (world_of (Some empty_store))).1 = Return body1
    /\ (register toy_scrypt toy_object_id {| email := bob; password := py "hunter2" |}
          (register toy_scrypt toy_object_id
             {| email := alice; password := py "hunter2" |}
             (world_of (Some empty_store))).2).1 = Return body2
    /\ w_db (register toy_scrypt toy_object_id {| email := bob; password := py "hunter2" |}
          (register toy_scrypt toy_object_id
             {| email := alice; password := py "hunter2" |}
             (world_of (Some empty_store))).2).2 = Some st2
    /\ emails st2 = emails empty_store ++ [alice; bob]
    /\ has_credential st2 alice /\ has_credential st2 bob.
Proof.
  apply (register_two_emails toy_scrypt toy_object_id
           {| email := alice; password := py "hunter2" |}
           {| email := bob; password := py "hunter2" |}
           (world_of (Some empty_store)) empty_store).
  - reflexivity.
  - discriminate.
  - apply empty_store_no_credential.
  - apply empty_store_no_credential.
  - reflexivity.
  - reflexivity.
Defined.


Lemma register_looks_up_first_witness :
  exists rest : list StoreOp,
    w_trace (register toy_scrypt toy_object_id
               {| email := alice; password := py "hunter2" |}
               (world_of (Some empty_store))).2
    = [] ++ OpFindOne (py "authuser") [(py "email", VStr alice)] :: rest
    /\ (length rest <= 1)%nat
    /\ Forall (fun op => is_insert op = true) rest.
Proof.
  apply (register_looks_up_first toy_scrypt toy_object_id
           {| email := alice; password := py "hunter2" |}
           (world_of (Some empty_store)) empty_store).
  reflexivity.
Defined.

Lemma register_unencodable_password_witness :
  (register toy_scrypt toy_object_id {| email := alice; password := [0xD800] |}
     (world_of (Some empty_store))).1 = Raise UnicodeEncodeError.
Proof.
  apply (register_unencodable_password toy_scrypt toy_object_id
           {| email := alice; password := [0xD800] |}
           (world_of (Some empty_store)) empty_store).
  - reflexivity.
  - apply empty_store_no_credential.
  - reflexivity.
Defined.

(** ** [deals_streamer]: the frames of a run *)

Local Open Scope Z_scope.

Lemma tick_message_run (tk : Tick) (sent : list PyStr.t) :
  iteration tk sent =
  match send_raises tk, sleep_raises tk with
  | Some e, _ => (Raise e, sent)
  | None, Some e => (Raise e, sent ++ [tick_message tk])
  | None, None => (Return tt, sent ++ [tick_message tk])
  end.
Proof.
  destruct (iteration_run tk sent) as (msg & Hm & ->).
  unfold tick_message. rewrite Hm. reflexivity.
Qed.

Lemma frames_sent_le (env : list Tick) : (frames_sent env <= length env)%nat.
Proof.
  induction env as [|tk env IH]; cbn [frames_sent length]; [lia|].
  destruct (send_raises tk), (sleep_raises tk); lia.
Qed.

Lemma while_true_frames (env : list Tick) (sent : list PyStr.t) :
  while_true env sent =
  (match first_raise env with
   | Some e => Raise e
   | None => Return Streaming
   end, sent ++ map tick_message (take (frames_sent env) env)).
Proof.
  revert sent. induction env as [|tk env IH]; intros sent.
  - cbn. rewrite app_nil_r. reflexivity.
  - cbn [while_true first_raise frames_sent]. unfold bind, tick_raises.
    rewrite tick_message_run.
    destruct (send_raises tk) as [e|].
    + cbn. rewrite app_nil_r. reflexivity.
    + destruct (sleep_raises tk) as [e|]; [reflexivity|].
      rewrite IH. cbn [take map]. rewrite <- app_assoc. reflexivity.
Qed.

Lemma first_raise_app (env env' : list Tick) :
  first_raise (env ++ env') =
  match first_raise env with
  | Some e => Some e
  | None => first_raise env'
  end.
Proof.
  induction env as [|tk env IH]; [reflexivity|].
  cbn [app first_raise]. destruct (tick_raises tk); [reflexivity | exact IH].
Qed.

Lemma frames_sent_app (env env' : list Tick) :
  frames_sent (env ++ env') =
  match first_raise env with
  | Some _ => frames_sent env
  | None => (length env + frames_sent env')%nat
  end.
Proof.
  induction env as [|tk env IH]; [reflexivity|].
  cbn [app first_raise frames_sent length]. unfold tick_raises.
  destruct (send_raises tk); [reflexivity|].
  destruct (sleep_raises tk); [reflexivity|].
  rewrite IH. destruct (first_raise env); reflexivity.
Qed.

Lemma deals_streamer_run (env : list Tick) :
  deals_streamer None env =
  (match first_raise env with
   | None => Streaming
   | Some e => if is_disconnect e then Closed else Failed e
   end, map tick_message (take (frames_sent env) env)).
Proof.
  unfold deals_streamer, try_except. rewrite while_true_frames. cbn [app].
  destruct (first_raise env) as [e|]; [|reflexivity].
  destruct (is_disconnect e); reflexivity.
Qed.

(** X16: the frames a run has sent are the frames of its turns, in order and
    one a turn, up to the first turn in which something raised: that turn's
    frame is among them when it was the sleep that raised, and is not when
    it was the send. *)
Theorem deals_streamer_frames (env : list Tick) :
  (deals_streamer None env).2 = map tick_message (take (frames_sent env) env)
  /\ (frames_sent env <= length env)%nat
  /\ (first_raise env = None -> (deals_streamer None env).2 = map tick_message env)
  /\ (forall quiet_env tk env',
        env = quiet_env ++ tk :: env' -> first_raise quiet_env = None ->
        (forall e, send_raises tk = Some e ->
           (deals_streamer None env).2 = map tick_message quiet_env)
        /\ (forall e, send_raises tk = None -> sleep_raises tk = Some e ->
           (deals_streamer None env).2 = map tick_message (quiet_env ++ [tk]))).
Proof.
  rewrite deals_streamer_run. cbn [snd].
  split; [reflexivity|]. split; [apply frames_sent_le|]. split.
  - intros Hq. f_equal. apply take_ge.
    pose proof (frames_sent_app env []) as H.
    rewrite app_nil_r, Hq in H. cbn in H. lia.
  - intros q tk env' -> Hq. rewrite frames_sent_app, Hq.
    cbn [frames_sent]. split.
    + intros e ->. rewrite Nat.add_0_r, take_app_length. reflexivity.
    + intros e -> ->.
      replace (q ++ tk :: env') with ((q ++ [tk]) ++ env')
        by (rewrite <- app_assoc; reflexivity).
      f_equal. apply take_app_length'. rewrite length_app. cbn. lia.
Qed.

(** X17: once something has raised in the loop the run is over: whatever the
    turns after it would have been, the outcome and the frames are the same.
    And in any case a longer run only adds frames to those of a shorter
    one. *)
Theorem deals_streamer_after_exit (env env' : list Tick) :
  (forall e, first_raise env = Some e ->
     deals_streamer None (env ++ env') = deals_streamer None env)
  /\ (deals_streamer None env).2 `prefix_of` (deals_streamer None (env ++ env')).2.
Proof.
  rewrite !deals_streamer_run, first_raise_app, frames_sent_app. cbn [snd].
  pose proof (frames_sent_le env) as Hle.
  destruct (first_raise env) as [e|] eqn:Hf.
  - rewrite take_app_le by exact Hle. split; [reflexivity|]. exists []. 
    rewrite app_nil_r. reflexivity.
  - split; [discriminate|].
    assert (frames_sent env = length env) as ->.
    { pose proof (frames_sent_app env []) as H.
      rewrite app_nil_r, Hf in H. cbn in H. lia. }
    rewrite take_app_add, take_ge, map_app by lia.
    eexists. reflexivity.
Qed.

Lemma deal_message_mod (t1 t2 : Z) :
  deal_message t1 t2 = deal_message (t1 mod 6) (t2 mod 500).
Proof.
  unfold deal_message. change (Z.of_nat (length cities)) with 6.
  rewrite !Z.mod_mod by lia. reflexivity.
Qed.

Lemma frame_ok_all :
  forallb (fun r => forallb (frame_ok r) (seq 0 500)) (seq 0 6) = true.
Proof. vm_compute. reflexivity. Qed.

Lemma frame_ok_at (t1 t2 : Z) :
  frame_ok (Z.to_nat (t1 mod 6)) (Z.to_nat (t2 mod 500)) = true.
Proof.
  pose proof (Z.mod_pos_bound t1 6 eq_refl) as B1.
  pose proof (Z.mod_pos_bound t2 500 eq_refl) as B2.
  pose proof frame_ok_all as H.
  rewrite forallb_forall in H.
  specialize (H (Z.to_nat (t1 mod 6))). rewrite forallb_forall in H.
  apply H; apply in_seq; lia.
Qed.

Lemma deal_message_reads_back (t1 t2 : Z) :
  exists m, deal_message t1 t2 = Return m
    /\ forallb printable m = true
    /\ frame_route m = Some (t1 mod 6)
    /\ frame_price m = Some (199 + t2 mod 500).
Proof.
  pose proof (Z.mod_pos_bound t1 6 eq_refl) as B1.
  pose proof (Z.mod_pos_bound t2 500 eq_refl) as B2.
  pose proof (frame_ok_at t1 t2) as H. unfold frame_ok in H.
  rewrite !Z2Nat.id in H by lia. rewrite <- deal_message_mod in H.
  destruct (deal_message t1 t2) as [m|]; [|discriminate].
  apply andb_true_iff in H as [H H3]. apply andb_true_iff in H as [H1 H2].
  apply bool_decide_eq_true in H2, H3. eauto.
Qed.

(** X18: every frame is printable ASCII (the arrow of the route goes out
    escaped), and can be read back: the first letter of the origin gives the
    entry of the city list, the three digits before the closing braces give
    the price. *)
Theorem deal_frame_reads_back (tk : Tick) :
  forallb printable (tick_message tk) = true
  /\ frame_route (tick_message tk) = Some (now_route tk mod 6)
  /\ frame_price (tick_message tk) = Some (199 + now_price tk mod 500).
Proof.
  unfold tick_message.
  destruct (deal_message_reads_back (now_route tk) (now_price tk))
    as (m & -> & H1 & H2 & H3).
  auto.
Qed.

(** X19: two turns send the same frame exactly when their clock readings
    agree modulo 6 for the route and modulo 500 for the price; so a reading
    two seconds later always gives another frame, and one 1500 seconds later
    the same frame. *)
Theorem deal_frames_differ (t1 t2 t1' t2' : Z) :
  (deal_message t1 t2 = deal_message t1' t2'
   <-> t1 mod 6 = t1' mod 6 /\ t2 mod 500 = t2' mod 500)
  /\ deal_message t1 t1 <> deal_message (t1 + 2) (t1 + 2)
  /\ deal_message (t1 + 1500) (t1 + 1500) = deal_message t1 t1.
Proof.
  assert (forall a b a' b', deal_message a b = deal_message a' b' ->
            a mod 6 = a' mod 6 /\ b mod 500 = b' mod 500) as Hinj.
  { intros a b a' b' E.
    destruct (deal_message_reads_back a b) as (m & Hm & _ & Hr & Hp).
    destruct (deal_message_reads_back a' b') as (m' & Hm' & _ & Hr' & Hp').
    assert (m = m') as <- by congruence.
    split; [congruence|]. assert (199 + b mod 500 = 199 + b' mod 500) by congruence.
    lia. }
  split; [split; [apply Hinj|]|split].
  - intros [E1 E2].
    rewrite (deal_message_mod t1 t2), (deal_message_mod t1' t2'), E1, E2.
    reflexivity.
  - intros E. apply Hinj in E as [_ E].
    rewrite <- Zplus_mod_idemp_l in E.
    pose proof (Z.mod_pos_bound t1 500 eq_refl) as Hb.
    remember (t1 mod 500) as r eqn:Er. clear Er.
    assert (r + 2 < 500 \/ r = 498 \/ r = 499) as [Hc|[-> | ->]] by lia.
    + rewrite Z.mod_small in E by lia. lia.
    + discriminate E.
    + discriminate E.
  - rewrite (deal_message_mod (t1 + 1500)), (deal_message_mod t1).
    replace (t1 + 1500) with (t1 + 250 * 6) at 1 by lia.
    replace (t1 + 1500) with (t1 + 3 * 500) by lia.
    rewrite !Z_mod_plus_full. reflexivity.
Qed.

Local Close Scope Z_scope.

Lemma deals_streamer_frames_witness :
  (deals_streamer None
     [quiet_tick 7; {| now_route := 9; now_price := 9; send_raises := None;
                       sleep_raises := Some CancelledError |}; quiet_tick 11]).2
  = map tick_message
      ([quiet_tick 7] ++ [{| now_route := 9; now_price := 9; send_raises := None;
                             sleep_raises := Some CancelledError |}]).
Proof.
  destruct (deals_streamer_frames
     [quiet_tick 7; {| now_route := 9; now_price := 9; send_raises := None;
                       sleep_raises := Some CancelledError |}; quiet_tick 11])
    as (_ & _ & _ & H).
  destruct (H [quiet_tick 7] {| now_route := 9; now_price := 9; send_raises := None;
                                sleep_raises := Some CancelledError |}
              [quiet_tick 11] eq_refl eq_refl) as [_ H'].
  exact (H' CancelledError eq_refl eq_refl).
Defined.

Lemma deals_streamer_after_exit_witness :
  deals_streamer None (cancelled_env ++ [quiet_tick 7]) = deals_streamer None cancelled_env.
Proof.
  destruct (deals_streamer_after_exit cancelled_env [quiet_tick 7]) as [H _].
  exact (H CancelledError eq_refl).
Defined.

Lemma deal_frames_differ_witness :
  deal_message 1505 1003 = deal_message 5 3.
Proof.
  apply (deal_frames_differ 1505 1003 5 3). split; reflexivity.
Defined.

(** * The claims the code does not meet as they are written *)


(** C2 as it is written fails on the same kind of request: email and
    password are strings as the schema asks, the store is configured and has
    no record for the email, and the handler returns no body: it raises. *)
Lemma register_valid_request_raises :
  ~ has_credential empty_store bob
  /\ (register toy_scrypt toy_object_id
        {| email := bob; password := py "pass" ++ [0xDFFF] |}
        (world_of (Some empty_store))).1 = Raise UnicodeEncodeError
  /\ (register toy_scrypt toy_object_id
        {| email := bob; password := py "pass" ++ [0xDFFF] |}
        (world_of (Some empty_store))).1
     <> Return [(py "id", VStr (toy_object_id empty_store)); (py "email", VStr bob)].
Proof.
  split; [apply empty_store_no_credential|]. split; [reflexivity | discriminate].
Qed.


Local Open Scope Z_scope.





Local Close Scope Z_scope.
